(** * Ticket triage workflow (app/main.py): shallow embedding and properties

    The Python module defines four LangGraph nodes working on a shared
    [TriageState] dictionary, two pure helpers ([_classify_issue_text],
    [_draft_reply]), the graph wiring ([build_triage_graph]) and the FastAPI
    endpoint [triage_invoke].  Python [str] values are modelled by their
    UTF-8 encoding; exceptions are modelled by the error monad [result]. *)

From Stdlib Require Import Ascii String NArith ZArith Bool Lia.
From stdpp Require Import base option list strings gmap.

Set Warnings "-register-all".

(** ** Python string primitives used by the module *)

(** A Python [str] is modelled by its UTF-8 encoding, a Rocq string of
    bytes.  Comparison, [in], [startswith] and [replace] with a non-empty
    pattern act on the encoding as they act on the text.  What depends on
    the Unicode character tables of the interpreter is not computed here
    but taken from a [Unicode] value: the case mappings of strings with
    non-ASCII characters and the non-ASCII decimal digits. *)
Record Unicode : Type := mkUnicode {
  (** [s.lower()] for a string [s] with a non-ASCII character; the result
      is not empty and is given as its first byte and the rest *)
  unicode_lower : string → ascii * string;
  (** [s.upper()] for a string [s] with a non-ASCII character, likewise *)
  unicode_upper : string → ascii * string;
  (** whether a non-ASCII character, given by its encoding, is a decimal
      digit (category Nd), as [\d] tests it *)
  unicode_digit : string → bool
}.

Module Text.

Definition in_range (lo hi : N) (c : ascii) : bool :=
  let n := N_of_ascii c in (N.leb lo n && N.leb n hi)%bool.

Definition is_upper (c : ascii) : bool := in_range 65 90 c.
Definition is_lower (c : ascii) : bool := in_range 97 122 c.

(** The digits [0-9]. *)
Definition is_ascii_digit (c : ascii) : bool := in_range 48 57 c.

(** A byte below 128: an ASCII character. *)
Definition is_ascii_char (c : ascii) : bool := N.ltb (N_of_ascii c) 128.

(** [s.isascii()] *)
Fixpoint is_ascii (s : string) : bool :=
  match s with
  | EmptyString => true
  | String c s' => (is_ascii_char c && is_ascii s')%bool
  end.

(** Case mapping of an ASCII character. *)
Definition lower_char (c : ascii) : ascii :=
  if is_upper c then ascii_of_N (N_of_ascii c + 32) else c.

Definition upper_char (c : ascii) : ascii :=
  if is_lower c then ascii_of_N (N_of_ascii c - 32) else c.

(** [s.lower()] and [s.upper()] for an ASCII string [s]: character by
    character. *)
Fixpoint ascii_lower (s : string) : string :=
  match s with
  | EmptyString => EmptyString
  | String c s' => String (lower_char c) (ascii_lower s')
  end.

Fixpoint ascii_upper (s : string) : string :=
  match s with
  | EmptyString => EmptyString
  | String c s' => String (upper_char c) (ascii_upper s')
  end.

(** [s.lower()] *)
Definition lower (U : Unicode) (s : string) : string :=
  if is_ascii s then ascii_lower s
  else let (c, r) := unicode_lower U s in String c r.

(** [s.upper()] *)
Definition upper (U : Unicode) (s : string) : string :=
  if is_ascii s then ascii_upper s
  else let (c, r) := unicode_upper U s in String c r.

(** [s.startswith(p)] *)
Fixpoint startswith (p s : string) : bool :=
  match p, s with
  | EmptyString, _ => true
  | String _ _, EmptyString => false
  | String a p', String b s' => (Ascii.eqb a b && startswith p' s')%bool
  end.

(** [sub in s]: the empty string is contained in every string. *)
Fixpoint contains (sub s : string) : bool :=
  (startswith sub s ||
   match s with
   | EmptyString => false
   | String _ s' => contains sub s'
   end)%bool.

(** The scan of [str.replace] for a non-empty pattern: left to right,
    non-overlapping; [skip] counts the characters of a match that are
    still to be dropped. *)
Fixpoint replace_from (old new : string) (skip : nat) (s : string) : string :=
  match s with
  | EmptyString => EmptyString
  | String c s' =>
      match skip with
      | S k => replace_from old new k s'
      | O =>
          if startswith old s
          then new +:+ replace_from old new (String.length old - 1) s'
          else String c (replace_from old new 0 s')
      end
  end.

(** A byte that continues the encoding of a character. *)
Definition is_continuation (c : ascii) : bool := in_range 128 191 c.

(** With an empty pattern Python inserts [new] before every character and
    at the end. *)
Fixpoint intersperse (new s : string) : string :=
  match s with
  | EmptyString => new
  | String c s' =>
      if is_continuation c then String c (intersperse new s')
      else new +:+ String c (intersperse new s')
  end.

(** [s.replace(old, new)] *)
Definition replace (old new s : string) : string :=
  match old with
  | EmptyString => intersperse new s
  | String _ _ => replace_from old new 0 s
  end.

(** The first [n] bytes of a string, and what follows them. *)
Fixpoint take (n : nat) (s : string) : string :=
  match n, s with
  | S n', String c s' => String c (take n' s')
  | _, _ => EmptyString
  end.

Fixpoint drop (n : nat) (s : string) : string :=
  match n, s with
  | S n', String _ s' => drop n' s'
  | _, _ => s
  end.

(** The number of bytes of the UTF-8 sequence that the byte [c] starts; 0
    for a byte that starts none. *)
Definition utf8_width (c : ascii) : nat :=
  let n := N_of_ascii c in
  if N.ltb n 128 then 1
  else if N.ltb n 192 then 0
  else if N.ltb n 224 then 2
  else if N.ltb n 240 then 3
  else if N.ltb n 248 then 4
  else 0.

(** The first character of [s], as its encoding, and the rest of [s]. *)
Definition take_char (s : string) : option (string * string) :=
  match s with
  | EmptyString => None
  | String c _ =>
      match utf8_width c with
      | O => None
      | w => if Nat.leb w (String.length s) then Some (take w s, drop w s) else None
      end
  end.

(** [\d] on a character given by its encoding: [0-9], or a non-ASCII
    decimal digit. *)
Definition is_digit (U : Unicode) (ch : string) : bool :=
  match ch with
  | EmptyString => false
  | String c EmptyString => is_ascii_digit c
  | String _ (String _ _) => unicode_digit U ch
  end.

(** [\d{n}] anchored at the start of [s]: the matched text and the rest. *)
Fixpoint take_digits (U : Unicode) (n : nat) (s : string) : option (string * string) :=
  match n with
  | O => Some (EmptyString, s)
  | S n' =>
      match take_char s with
      | Some (d, rest) =>
          if is_digit U d then
            match take_digits U n' rest with
            | Some (ds, rest') => Some (d +:+ ds, rest')
            | None => None
            end
          else None
      | None => None
      end
  end.

(** A match of the pattern [(ORD\d{4})] under [re.IGNORECASE] anchored at
    the start of [s]; the result is group 1, the matched text.  Only the
    ASCII letters match [O], [R] and [D] without regard to case. *)
Definition match_order_token (U : Unicode) (s : string) : option string :=
  match s with
  | String c1 (String c2 (String c3 rest)) =>
      if (Ascii.eqb (lower_char c1) "o"%char
          && Ascii.eqb (lower_char c2) "r"%char
          && Ascii.eqb (lower_char c3) "d"%char)%bool
      then
        match take_digits U 4 rest with
        | Some (ds, _) => Some (String c1 (String c2 (String c3 ds)))
        | None => None
        end
      else None
  | _ => None
  end.

(** [re.search(r"(ORD\d{4})", s, re.IGNORECASE)], returning
    [match.group(1)]: the leftmost match. *)
Fixpoint search_order_token (U : Unicode) (s : string) : option string :=
  match match_order_token U s with
  | Some m => Some m
  | None =>
      match s with
      | EmptyString => None
      | String _ s' => search_order_token U s'
      end
  end.

(** [c in s] for a single character [c]. *)
Fixpoint has_char (c : ascii) (s : string) : bool :=
  match s with
  | EmptyString => false
  | String a s' => (Ascii.eqb a c || has_char c s')%bool
  end.

(** Truthiness of a Python string. *)
Definition truthy (s : string) : bool :=
  match s with EmptyString => false | String _ _ => true end.

End Text.

(** ** Exceptions *)

Inductive exn : Type :=
  | ValueError (msg : string)
  | KeyError (key : string)
  | TypeError (msg : string)
  | GraphRecursionError.

Inductive result (A : Type) : Type :=
  | OK (a : A)
  | Raise (e : exn).
Arguments OK {A} a.
Arguments Raise {A} e.

(** [result] is an error monad; stdpp's [x ← r; k] notation sequences
    statements, an exception ends the sequence. *)
Global Instance result_ret : MRet result := fun A a => OK a.
Global Instance result_bind : MBind result := fun A B k r =>
  match r with
  | OK a => k a
  | Raise e => Raise e
  end.

(** ** Data model *)

(** Values decoded by [json.load]; the [Any] of [Dict[str, Any]]. *)
Inductive json : Type :=
  | JNull
  | JBool (b : bool)
  | JInt (n : Z)
  | JFloat (mantissa exponent : Z)
  | JStr (s : string)
  | JArr (items : list json)
  | JObj (members : list (string * json)).

(** Entries of the [messages] trace. *)
Inductive BaseMessage : Type :=
  | HumanMessage (content : string)
  | AIMessage (content : string)
  | SystemMessage (content : string).

(** [TriageState] is a [TypedDict] with [total=False]: every key may be
    missing (outer [option]); a key declared [Optional[...]] may hold
    [None] (inner [option]). *)
Record TriageState : Type := mkState {
  messages : option (list BaseMessage);
  ticket_text : option string;
  order_id : option (option string);
  issue_type : option (option string);
  evidence : option (option string);
  recommendation : option (option string);
  order : option (option (gmap string json));
  reply_text : option (option string)
}.

(** [state.get(key)] for an [Optional] key: [None] when the key is missing
    or holds [None]. *)
Definition get {A : Type} (field : option (option A)) : option A :=
  match field with
  | Some (Some v) => Some v
  | _ => None
  end.

(** [not x] for an optional string: [None] and [""] are falsy. *)
Definition falsy (x : option string) : bool :=
  match x with
  | None => true
  | Some s => negb (Text.truthy s)
  end.

(** [dict(state)] followed by one assignment. *)
Definition set_messages (v : list BaseMessage) (st : TriageState) : TriageState :=
  mkState (Some v) (ticket_text st) (order_id st) (issue_type st)
          (evidence st) (recommendation st) (order st) (reply_text st).

Definition set_order_id (v : option string) (st : TriageState) : TriageState :=
  mkState (messages st) (ticket_text st) (Some v) (issue_type st)
          (evidence st) (recommendation st) (order st) (reply_text st).

Definition set_issue_type (v : option string) (st : TriageState) : TriageState :=
  mkState (messages st) (ticket_text st) (order_id st) (Some v)
          (evidence st) (recommendation st) (order st) (reply_text st).

Definition set_evidence (v : option string) (st : TriageState) : TriageState :=
  mkState (messages st) (ticket_text st) (order_id st) (issue_type st)
          (Some v) (recommendation st) (order st) (reply_text st).

Definition set_recommendation (v : option string) (st : TriageState) : TriageState :=
  mkState (messages st) (ticket_text st) (order_id st) (issue_type st)
          (evidence st) (Some v) (order st) (reply_text st).

Definition set_order (v : option (gmap string json)) (st : TriageState) : TriageState :=
  mkState (messages st) (ticket_text st) (order_id st) (issue_type st)
          (evidence st) (recommendation st) (Some v) (reply_text st).

Definition set_reply_text (v : option string) (st : TriageState) : TriageState :=
  mkState (messages st) (ticket_text st) (order_id st) (issue_type st)
          (evidence st) (recommendation st) (order st) (Some v).

(** Rows of [issues.json] and [replies.json]. *)
Record IssueRule : Type := mkRule {
  rule_keyword : string;
  rule_issue_type : string
}.

Record ReplyTemplate : Type := mkTemplate {
  tpl_issue_type : string;
  tpl_template : string
}.

(** ** Sample tables in the shape of the [mock_data] files *)

Module Sample.

Definition ISSUES : list IssueRule :=
  [ mkRule "refund" "refund_request";
    mkRule "damaged" "damaged_item";
    mkRule "late" "late_delivery";
    mkRule "missing" "missing_item" ].

Definition REPLIES : list ReplyTemplate :=
  [ mkTemplate "refund_request"
      "Hi {{customer_name}}, your refund for order {{order_id}} is on its way.";
    mkTemplate "damaged_item"
      "Hi {{customer_name}}, sorry that order {{order_id}} arrived damaged." ].

Definition ava : gmap string json :=
  <["order_id" := JStr "ORD1001"]> (<["customer_name" := JStr "Ava Chen"]> ∅).

Definition ben : gmap string json :=
  <["order_id" := JStr "ORD1002"]> (<["customer_name" := JStr "Ben Ortiz"]> ∅).

Definition ORDERS : list (gmap string json) := [ava; ben].

(** The reducer on messages without identifiers: plain concatenation. *)
Definition add_messages (left right : list BaseMessage) : list BaseMessage :=
  left ++ right.

Definition ticket : string :=
  "I received a damaged item in my order ORD1001 and need help.".

(** A small character table for the examples, an excerpt of the
    interpreter's.  Beyond ASCII it knows the capital letters of the Latin-1
    supplement (two bytes, the first one 195) with their small letters, and
    the Arabic-Indic digits (two bytes, the first one 217) as decimal
    digits; upper case is needed for order tokens only, whose non-ASCII
    characters are digits and have no case.  The examples stay within this
    range. *)
Fixpoint latin1_lower (after_195 : bool) (s : string) : string :=
  match s with
  | EmptyString => EmptyString
  | String c s' =>
      if after_195 then
        let n := N_of_ascii c in
        String (if (N.leb 128 n && N.leb n 158 && negb (N.eqb n 151))%bool
                then ascii_of_N (n + 32) else c)
               (latin1_lower false s')
      else if N.eqb (N_of_ascii c) 195 then String c (latin1_lower true s')
      else String (Text.lower_char c) (latin1_lower false s')
  end.

Definition first_and_rest (s : string) : ascii * string :=
  match s with
  | EmptyString => ("?"%char, EmptyString)
  | String c r => (c, r)
  end.

Definition arabic_indic_digit (ch : string) : bool :=
  match ch with
  | String c (String d EmptyString) =>
      (N.eqb (N_of_ascii c) 217 && N.leb 160 (N_of_ascii d)
       && N.leb (N_of_ascii d) 169)%bool
  | _ => false
  end.

Definition unicode : Unicode :=
  mkUnicode (λ s, first_and_rest (latin1_lower false s))
            (λ s, first_and_rest (Text.ascii_upper s))
            arabic_indic_digit.

End Sample.

(** * The module, over a character table *)

Section Model.

(** The Unicode tables of the interpreter. *)
Variable U : Unicode.

(** ** Node helpers (pure business logic) *)

(** The result dictionary of [_classify_issue_text]. *)
Record Classification : Type := mkClassification {
  cls_issue_type : string;
  cls_evidence : string;
  cls_recommendation : string
}.

Definition recommendation_map : gmap string string :=
  list_to_map
    [ ("refund_request", "Issue a refund after verification.");
      ("damaged_item", "Send a replacement and consider partial refund.");
      ("late_delivery", "Apologize and offer discount or refund shipping.");
      ("missing_item", "Ship the missing item and confirm address.") ].

(** The [for row in ISSUES: ... break] loop, started with
    [issue_type = "other"]. *)
Fixpoint first_issue_match (rows : list IssueRule) (text_lower : string) : string :=
  match rows with
  | [] => "other"
  | row :: rest =>
      if Text.contains (Text.lower U (rule_keyword row)) text_lower
      then rule_issue_type row
      else first_issue_match rest text_lower
  end.

(** The [for row in REPLIES: ... break] loop, started with
    [template = None]. *)
Fixpoint first_template_match (rows : list ReplyTemplate) (it : string) : option string :=
  match rows with
  | [] => None
  | row :: rest =>
      if String.eqb (tpl_issue_type row) it
      then Some (tpl_template row)
      else first_template_match rest it
  end.

Definition fallback_template : string :=
  "Hi {{customer_name}}, thanks for reaching out about order {{order_id}}. " +:+
  "Our team is reviewing your request and will follow up shortly.".

(** How the [TypeError] of [str.replace] names the type of a wrong
    argument: the name of its type, and [None] for [None]. *)
Definition type_name (v : json) : string :=
  match v with
  | JNull => "None"
  | JBool _ => "bool"
  | JInt _ => "int"
  | JFloat _ _ => "float"
  | JStr _ => "str"
  | JArr _ => "list"
  | JObj _ => "dict"
  end.

(** [s.replace(old, new)] where [new] comes out of a [Dict[str, Any]]:
    [str.replace] raises [TypeError] unless [new] is a [str]. *)
Definition str_replace (s old : string) (new : json) : result string :=
  match new with
  | JStr n => OK (Text.replace old n s)
  | _ => Raise (TypeError ("replace() argument 2 must be str, not " +:+ type_name new))
  end.

(** [v == s] for a JSON value [v] and a string [s]. *)
Definition json_eq_str (v : json) (s : string) : bool :=
  match v with
  | JStr t => String.eqb t s
  | _ => false
  end.

(** Truthiness of a dictionary: empty dictionaries are falsy. *)
Definition dict_truthy (d : gmap string json) : bool :=
  negb (bool_decide (d = ∅)).

Section Workflow.

(** The tables loaded from [mock_data] at import time. *)
Variable ISSUES : list IssueRule.
Variable REPLIES : list ReplyTemplate.
Variable ORDERS : list (gmap string json).

Definition _classify_issue_text (ticket_text : string) : Classification :=
  let text_lower := Text.lower U ticket_text in
  let issue_type := first_issue_match ISSUES text_lower in
  let evidence := "Matched keyword for issue_type=" +:+ issue_type in
  let recommendation :=
    default "Review ticket manually." (recommendation_map !! issue_type) in
  mkClassification issue_type evidence recommendation.

Definition _draft_reply (issue_type : string) (order : gmap string json)
  : result string :=
  let template := default fallback_template (first_template_match REPLIES issue_type) in
  let customer_name := default (JStr "there") (order !! "customer_name") in
  let order_id := default (JStr "") (order !! "order_id") in
  s ← str_replace template "{{customer_name}}" customer_name;
  str_replace s "{{order_id}}" order_id.

(** ** LangGraph nodes *)

Definition ingest_node (state : TriageState) : result TriageState :=
  match ticket_text state with
  | None => Raise (ValueError "ticket_text is required in state for ingest_node")
  | Some ticket_text =>
      let order_id := get (order_id state) in
      let order_id :=
        if falsy order_id then
          match Text.search_order_token U ticket_text with
          | Some m => Some (Text.upper U m)
          | None => order_id
          end
        else order_id in
      let messages := default [] (messages state) ++ [HumanMessage ticket_text] in
      OK (set_order_id order_id (set_messages messages state))
  end.

Definition classify_issue_node (state : TriageState) : result TriageState :=
  let ticket_text :=
    match ticket_text state with
    | Some t => if Text.truthy t then t else ""
    | None => ""
    end in
  let classification := _classify_issue_text ticket_text in
  OK (set_recommendation (Some (cls_recommendation classification))
       (set_evidence (Some (cls_evidence classification))
         (set_issue_type (Some (cls_issue_type classification)) state))).

(** [next((o for o in ORDERS if o["order_id"] == order_id), None)]; the
    subscript raises [KeyError] on a record without that key. *)
Fixpoint find_order (rows : list (gmap string json)) (order_id : string)
  : result (option (gmap string json)) :=
  match rows with
  | [] => OK None
  | o :: rest =>
      match o !! "order_id" with
      | None => Raise (KeyError "order_id")
      | Some v => if json_eq_str v order_id then OK (Some o) else find_order rest order_id
      end
  end.

Definition fetch_order_node (state : TriageState) : result TriageState :=
  let order_id := get (order_id state) in
  match order_id with
  | None => Raise (ValueError "order_id is required before fetch_order_node")
  | Some oid =>
      if negb (Text.truthy oid)
      then Raise (ValueError "order_id is required before fetch_order_node")
      else
        order ← find_order ORDERS oid;
        match order with
        | Some o =>
            if dict_truthy o then OK (set_order (Some o) state)
            else Raise (ValueError ("order not found for id=" +:+ oid))
        | None => Raise (ValueError ("order not found for id=" +:+ oid))
        end
  end.

Definition draft_reply_node (state : TriageState) : result TriageState :=
  let issue_type :=
    match get (issue_type state) with
    | Some it => if Text.truthy it then it else "other"
    | None => "other"
    end in
  match get (order state) with
  | None => Raise (ValueError "order is required before draft_reply_node")
  | Some order =>
      reply_text ← _draft_reply issue_type order;
      OK (set_reply_text (Some reply_text) state)
  end.

End Workflow.

(** ** The LangGraph workflow *)

Definition Node : Type := TriageState -> result TriageState.

(** What [StateGraph] records while the workflow is being declared. *)
Record StateGraph : Type := mkGraph {
  nodes : list (string * Node);
  edges : list (string * string);
  entry_point : option string
}.

Definition END : string := "__end__".

Definition new_graph : StateGraph := mkGraph [] [] None.

Definition add_node (name : string) (f : Node) (g : StateGraph) : StateGraph :=
  mkGraph (nodes g ++ [(name, f)]) (edges g) (entry_point g).

Definition add_edge (src dst : string) (g : StateGraph) : StateGraph :=
  mkGraph (nodes g) (edges g ++ [(src, dst)]) (entry_point g).

Definition set_entry_point (name : string) (g : StateGraph) : StateGraph :=
  mkGraph (nodes g) (edges g) (Some name).

(** Association-list lookup by name. *)
Fixpoint assoc {A : Type} (name : string) (l : list (string * A)) : option A :=
  match l with
  | [] => None
  | (k, v) :: rest => if String.eqb k name then Some v else assoc name rest
  end.

(** A key without reducer keeps the last value written to it. *)
Definition last_value {A : Type} (written current : option A) : option A :=
  match written with
  | Some v => Some v
  | None => current
  end.

(** The default [recursion_limit] of a compiled graph. *)
Definition recursion_limit : nat := 25.

Record TriageInput : Type := mkInput {
  body_ticket_text : string;
  body_order_id : option string
}.

Record TriageResponse : Type := mkResponse {
  resp_order_id : option string;
  resp_issue_type : option string;
  resp_order : option (gmap string json);
  resp_reply_text : option string;
  resp_evidence : option string;
  resp_recommendation : option string
}.

(** What the endpoint hands back to FastAPI: a JSON body, an
    [HTTPException], or an exception it does not catch. *)
Inductive Outcome : Type :=
  | Response (body : TriageResponse)
  | HTTPException (status_code : nat) (detail : string)
  | Uncaught (e : exn).

Section Executor.

(** The reducer of the [messages] key; it is library code working on
    message identifiers, which the model leaves abstract. *)
Variable add_messages : list BaseMessage -> list BaseMessage -> list BaseMessage.

(** Writing the dictionary returned by a node into the graph state:
    [messages] goes through its reducer, every other key is overwritten. *)
Definition apply_writes (current written : TriageState) : TriageState :=
  mkState
    (match messages written with
     | Some new => Some (add_messages (default [] (messages current)) new)
     | None => messages current
     end)
    (last_value (ticket_text written) (ticket_text current))
    (last_value (order_id written) (order_id current))
    (last_value (issue_type written) (issue_type current))
    (last_value (evidence written) (evidence current))
    (last_value (recommendation written) (recommendation current))
    (last_value (order written) (order current))
    (last_value (reply_text written) (reply_text current)).

(** Running a compiled graph from node [cur]: each step runs one node,
    writes its result into the state and follows the node's edge.  The
    first component of the result lists the nodes that were executed, in
    order; an exception raised by a node ends the run and is the run's
    result. *)
Fixpoint run (g : StateGraph) (fuel : nat) (cur : string) (st : TriageState)
    (trace : list string) : list string * result TriageState :=
  if String.eqb cur END then (trace, OK st)
  else
    match fuel with
    | O => (trace, Raise GraphRecursionError)
    | S fuel' =>
        match assoc cur (nodes g) with
        | None => (trace, Raise (ValueError ("unknown node " +:+ cur)))
        | Some f =>
            match f st with
            | Raise e => (trace ++ [cur], Raise e)
            | OK written =>
                let st' := apply_writes st written in
                match assoc cur (edges g) with
                | None => (trace ++ [cur], OK st')
                | Some next => run g fuel' next st' (trace ++ [cur])
                end
            end
        end
    end.

Definition run_graph (g : StateGraph) (input : TriageState)
  : list string * result TriageState :=
  match entry_point g with
  | None => ([], Raise (ValueError "graph has no entry point"))
  | Some start => run g recursion_limit start input []
  end.

(** [graph.invoke(input)] *)
Definition invoke (g : StateGraph) (input : TriageState) : result TriageState :=
  snd (run_graph g input).

(** The nodes executed by [graph.invoke(input)]. *)
Definition executed (g : StateGraph) (input : TriageState) : list string :=
  fst (run_graph g input).

Variable ISSUES : list IssueRule.
Variable REPLIES : list ReplyTemplate.
Variable ORDERS : list (gmap string json).

Definition build_triage_graph : StateGraph :=
  let workflow := new_graph in
  let workflow := add_node "ingest" ingest_node workflow in
  let workflow := add_node "classify_issue" (classify_issue_node ISSUES) workflow in
  let workflow := add_node "fetch_order" (fetch_order_node ORDERS) workflow in
  let workflow := add_node "draft_reply" (draft_reply_node REPLIES) workflow in
  let workflow := set_entry_point "ingest" workflow in
  let workflow := add_edge "ingest" "classify_issue" workflow in
  let workflow := add_edge "classify_issue" "fetch_order" workflow in
  let workflow := add_edge "fetch_order" "draft_reply" workflow in
  let workflow := add_edge "draft_reply" END workflow in
  workflow.

Definition graph : StateGraph := build_triage_graph.

(** ** The FastAPI endpoint *)

Definition initial_state (body : TriageInput) : TriageState :=
  mkState (Some []) (Some (body_ticket_text body)) (Some (body_order_id body))
          (Some None) (Some None) (Some None) (Some None) (Some None).

(** The [except ValueError as e:] block, with [message = str(e)]. *)
Definition on_value_error (message : string) : Outcome :=
  if Text.contains "order_id is required" message
  then HTTPException 400 message
  else if Text.contains "order not found" message
  then HTTPException 404 message
  else HTTPException 500 message.

Definition triage_invoke (body : TriageInput) : Outcome :=
  match invoke graph (initial_state body) with
  | Raise (ValueError message) => on_value_error message
  | Raise e => Uncaught e
  | OK final_state =>
      match get (order final_state) with
      | None => HTTPException 500 "order missing in final state"
      | Some o =>
          if dict_truthy o then
            Response (mkResponse (get (order_id final_state))
                        (get (issue_type final_state))
                        (get (order final_state))
                        (get (reply_text final_state))
                        (get (evidence final_state))
                        (get (recommendation final_state)))
          else HTTPException 500 "order missing in final state"
      end
  end.

End Executor.

(** ** Vocabulary of the specification *)

(** The four pipeline stages and the keys of the shared state. *)
Inductive Stage : Type := Ingest | Classify | FetchOrder | DraftReply.

Inductive Field : Type :=
  | F_messages | F_ticket_text | F_order_id | F_issue_type
  | F_evidence | F_recommendation | F_order | F_reply_text.

Global Instance Field_eq_dec : EqDecision Field.
Proof. solve_decision. Defined.

(** The keys a stage is allowed to write. *)
Definition owns (s : Stage) : list Field :=
  match s with
  | Ingest => [F_order_id; F_messages]
  | Classify => [F_issue_type; F_evidence; F_recommendation]
  | FetchOrder => [F_order]
  | DraftReply => [F_reply_text]
  end.

(** Two states agree on a key. *)
Definition same_field (f : Field) (a b : TriageState) : Prop :=
  match f with
  | F_messages => messages a = messages b
  | F_ticket_text => ticket_text a = ticket_text b
  | F_order_id => order_id a = order_id b
  | F_issue_type => issue_type a = issue_type b
  | F_evidence => evidence a = evidence b
  | F_recommendation => recommendation a = recommendation b
  | F_order => order a = order b
  | F_reply_text => reply_text a = reply_text b
  end.

(** The node function implementing a stage. *)
Definition node_of (ISSUES : list IssueRule) (REPLIES : list ReplyTemplate)
    (ORDERS : list (gmap string json)) (s : Stage) : Node :=
  match s with
  | Ingest => ingest_node
  | Classify => classify_issue_node ISSUES
  | FetchOrder => fetch_order_node ORDERS
  | DraftReply => draft_reply_node REPLIES
  end.

(** The failures of the specification's taxonomy, as the exceptions the
    nodes raise for them. *)
Definition MissingField_ticket_text : exn :=
  ValueError "ticket_text is required in state for ingest_node".

Definition MissingField_order_id : exn :=
  ValueError "order_id is required before fetch_order_node".

Definition MissingField_order : exn :=
  ValueError "order is required before draft_reply_node".

Definition NotFound (order_id : string) : exn :=
  ValueError ("order not found for id=" +:+ order_id).

(** [d] is the encoding of exactly one character, and that character is
    a decimal digit. *)
Definition digit_char (d : string) : Prop :=
  Text.take_char d = Some (d, "") ∧ Text.is_digit U d = true.

(** [ds] is [n] decimal digits in a row. *)
Fixpoint digits (n : nat) (ds : string) : Prop :=
  match n with
  | O => ds = ""
  | S n' => ∃ d rest, ds = d +:+ rest ∧ digit_char d ∧ digits n' rest
  end.

(** [m] is "ORD" in any letter case followed by exactly four decimal
    digits. *)
Definition order_token (m : string) : Prop :=
  ∃ c1 c2 c3 ds,
    m = String c1 (String c2 (String c3 ds)) ∧
    Text.lower_char c1 = "o"%char ∧ Text.lower_char c2 = "r"%char ∧
    Text.lower_char c3 = "d"%char ∧
    digits 4 ds.

(** The same in ASCII: the letters, then four of the digits [0-9]. *)
Definition ascii_order_token (m : string) : Prop :=
  ∃ c1 c2 c3 d1 d2 d3 d4,
    m = String c1 (String c2 (String c3
          (String d1 (String d2 (String d3 (String d4 "")))))) ∧
    Text.lower_char c1 = "o"%char ∧ Text.lower_char c2 = "r"%char ∧
    Text.lower_char c3 = "d"%char ∧
    Text.is_ascii_digit d1 = true ∧ Text.is_ascii_digit d2 = true ∧
    Text.is_ascii_digit d3 = true ∧ Text.is_ascii_digit d4 = true.

(** [m] occurs in [text] after the prefix [pre]. *)
Definition occurs_after (pre m text : string) : Prop :=
  ∃ post, text = pre +:+ m +:+ post.

(** [keyword] is a substring of [text] up to letter case, as Python has
    it: the lower-case form of [keyword] occurs in the lower-case form of
    [text]. *)
Definition ci_substring (keyword text : string) : Prop :=
  ∃ pre post, Text.lower U text = pre +:+ Text.lower U keyword +:+ post.




(** The text the Classify node works on: [state.get("ticket_text") or ""]. *)
Definition text_of (st : TriageState) : string := default "" (ticket_text st).

(** The issue type the DraftReply node renders for:
    [state.get("issue_type") or "other"]. *)
Definition issue_type_or_other (st : TriageState) : string :=
  match get (issue_type st) with
  | Some it => if Text.truthy it then it else "other"
  | None => "other"
  end.

(** Every record of the orders table carries the key it is looked up by. *)
Definition keyed (ORDERS : list (gmap string json)) : Prop :=
  Forall (λ o, is_Some (o !! "order_id")) ORDERS.

(** A status code of the 4xx class. *)
Definition client_error (o : Outcome) : Prop :=
  match o with
  | HTTPException code _ => 400 ≤ code < 500
  | _ => False
  end.

(** Whether a decoded JSON value is a string. *)
Definition is_str (v : json) : bool :=
  match v with
  | JStr _ => true
  | _ => false
  end.

(** The field of an order record that a placeholder is filled with, with
    the default [dict.get] falls back to. *)
Definition field_or (o : gmap string json) (key fallback : string) : json :=
  default (JStr fallback) (o !! key).

(** The node names of the workflow, in the order of its edges. *)
Definition stage_names : list string :=
  ["ingest"; "classify_issue"; "fetch_order"; "draft_reply"].

(** "ORD" followed by four of the digits [0-9]. *)
Definition normalized_order_id (s : string) : Prop :=
  ∃ d1 d2 d3 d4,
    s = String "O" (String "R" (String "D"
          (String d1 (String d2 (String d3 (String d4 "")))))) ∧
    Text.is_ascii_digit d1 = true ∧ Text.is_ascii_digit d2 = true ∧
    Text.is_ascii_digit d3 = true ∧ Text.is_ascii_digit d4 = true.

(** The record carries an [order_id], and it is not the string [oid]: the
    lookup passes over it. *)
Definition other_id (oid : string) (o : gmap string json) : Prop :=
  ∃ v, o !! "order_id" = Some v ∧ v ≠ JStr oid.

(** The order id a request is processed with: the one the caller supplied
    when it is non-empty, else the upper-case form of the token found in the
    ticket text. *)
Definition request_order_id (body : TriageInput) (oid : string) : Prop :=
  (body_order_id body = Some oid ∧ oid ≠ "") ∨
  (falsy (body_order_id body) = true ∧
   ∃ m, Text.search_order_token U (body_ticket_text body) = Some m ∧
        oid = Text.upper U m).

(** * Properties *)

(** ** Facts about the string primitives *)

Lemma app_cons c s t : String c s +:+ t = String c (s +:+ t).
Proof. reflexivity. Qed.

Lemma app_empty_l t : "" +:+ t = t.
Proof. reflexivity. Qed.

Lemma app_assoc' s t u : (s +:+ t) +:+ u = s +:+ (t +:+ u).
Proof.
  induction s as [|c s IH]; [done|].
  by rewrite !app_cons, IH.
Qed.

Lemma length_app s t : String.length (s +:+ t) = String.length s + String.length t.
Proof.
  induction s as [|c s IH]; [done|].
  rewrite app_cons. simpl. by rewrite IH.
Qed.



Lemma is_ascii_app s t :
  Text.is_ascii (s +:+ t) = (Text.is_ascii s && Text.is_ascii t)%bool.
Proof.
  induction s as [|c s IH]; [done|].
  rewrite app_cons. simpl. by rewrite IH, andb_assoc.
Qed.

(** On ASCII strings the case mappings are the character-wise ones. *)
Lemma lower_ascii s : Text.is_ascii s = true → Text.lower U s = Text.ascii_lower s.
Proof. intros H. unfold Text.lower. by rewrite H. Qed.

Lemma upper_ascii s : Text.is_ascii s = true → Text.upper U s = Text.ascii_upper s.
Proof. intros H. unfold Text.upper. by rewrite H. Qed.

(** The case mappings send no string but the empty one to the empty
    string. *)
Lemma lower_empty s : Text.lower U s = "" → s = "".
Proof.
  unfold Text.lower. destruct (Text.is_ascii s).
  - by destruct s.
  - by destruct (unicode_lower U s).
Qed.

Lemma upper_empty s : Text.upper U s = "" → s = "".
Proof.
  unfold Text.upper. destruct (Text.is_ascii s).
  - by destruct s.
  - by destruct (unicode_upper U s).
Qed.




Lemma startswith_spec p s :
  Text.startswith p s = true ↔ ∃ r, s = p +:+ r.
Proof.
  revert s. induction p as [|a p IH]; intros s; simpl.
  - split; [intros _; by exists s|done].
  - destruct s as [|b s].
    + split; [done|]. intros [r Hr]. by rewrite app_cons in Hr.
    + rewrite andb_true_iff, Ascii.eqb_eq, IH. split.
      * intros [-> [r ->]]. by exists r.
      * intros [r Hr]. rewrite app_cons in Hr. injection Hr as -> ->. eauto.
Qed.

Lemma contains_spec sub s :
  Text.contains sub s = true ↔ ∃ a b, s = a +:+ sub +:+ b.
Proof.
  induction s as [|c s IH].
  - simpl. rewrite orb_false_r, startswith_spec. split.
    + intros [r Hr]. by exists "", r.
    + intros (a & b & H). destruct a as [|x a]; [|by rewrite app_cons in H].
      rewrite app_empty_l in H. by exists b.
  - cbn [Text.contains]. rewrite orb_true_iff, startswith_spec, IH. split.
    + intros [[r Hr]|(a & b & ->)].
      * by exists "", r.
      * by exists (String c a), b.
    + intros (a & b & H). destruct a as [|x a].
      * left. by exists b.
      * right. rewrite app_cons in H. injection H as -> ->. by exists a, b.
Qed.

(** The classifier's test [keyword.lower() in text_lower] is the
    case-insensitive substring test. *)
Lemma contains_lower_iff keyword text :
  Text.contains (Text.lower U keyword) (Text.lower U text) = true ↔
  ci_substring keyword text.
Proof. apply contains_spec. Qed.


(** ** Classification *)

Lemma classify_issue_node_eq ISSUES st :
  classify_issue_node ISSUES st =
  OK (set_recommendation (Some (cls_recommendation (_classify_issue_text ISSUES (text_of st))))
       (set_evidence (Some (cls_evidence (_classify_issue_text ISSUES (text_of st))))
         (set_issue_type (Some (cls_issue_type (_classify_issue_text ISSUES (text_of st)))) st))).
Proof.
  unfold classify_issue_node, text_of.
  destruct (ticket_text st) as [[|c t]|]; reflexivity.
Qed.


Lemma first_issue_match_miss rows text_lower :
  Forall (λ r, Text.contains (Text.lower U (rule_keyword r)) text_lower = false) rows →
  first_issue_match rows text_lower = "other".
Proof.
  induction 1 as [|r rows Hr _ IH]; simpl; [done|]. by rewrite Hr.
Qed.



(** C8 (amended). The recommendation produced by Classify is the entry of
    the recommendation lookup for the issue type it chose, and the fixed
    fallback ["Review ticket manually."] for ["other"] and for every issue
    type absent from the lookup. *)
Theorem classify_recommendation (ISSUES : list IssueRule) (st : TriageState) :
  ∃ st' it rec,
    classify_issue_node ISSUES st = OK st' ∧
    issue_type st' = Some (Some it) ∧ recommendation st' = Some (Some rec) ∧
    (it = "other" → rec = "Review ticket manually.") ∧
    (recommendation_map !! it = None → rec = "Review ticket manually.") ∧
    (∀ r, recommendation_map !! it = Some r → rec = r).
Proof.
  do 3 eexists. split; [apply classify_issue_node_eq|].
  split; [reflexivity|]. split; [reflexivity|]. simpl.
  repeat split.
  - intros ->. reflexivity.
  - intros ->. reflexivity.
  - intros r ->. reflexivity.
Qed.


(** C9. Classify is idempotent and deterministic: it always succeeds,
    applying it to its own result changes nothing (so [issue_type],
    [evidence] and [recommendation] are the same after two applications as
    after one), and two states with the same [ticket_text] get the same
    three fields. *)
Theorem classify_idempotent (ISSUES : list IssueRule) (st : TriageState) :
  ∃ st1,
    classify_issue_node ISSUES st = OK st1 ∧
    classify_issue_node ISSUES st1 = OK st1 ∧
    (∀ other st2,
        ticket_text other = ticket_text st →
        classify_issue_node ISSUES other = OK st2 →
        issue_type st2 = issue_type st1 ∧ evidence st2 = evidence st1 ∧
        recommendation st2 = recommendation st1).
Proof.
  eexists. split; [apply classify_issue_node_eq|]. split.
  - rewrite classify_issue_node_eq. reflexivity.
  - intros other st2 Htext. rewrite classify_issue_node_eq.
    intros [= <-]. unfold text_of. rewrite Htext. auto.
Qed.

(** ** Frame: what a stage leaves alone *)

Lemma fetch_order_node_ok ORDERS st st' :
  fetch_order_node ORDERS st = OK st' → ∃ o, st' = set_order (Some o) st.
Proof.
  unfold fetch_order_node.
  destruct (get (order_id st)) as [oid|]; [|discriminate].
  destruct (negb (Text.truthy oid)); [discriminate|].
  destruct (find_order ORDERS oid) as [[o|]|e]; simpl; try discriminate.
  destruct (dict_truthy o); [|discriminate].
  intros [= <-]. by exists o.
Qed.

Lemma draft_reply_node_ok REPLIES st st' :
  draft_reply_node REPLIES st = OK st' → ∃ r, st' = set_reply_text (Some r) st.
Proof.
  unfold draft_reply_node.
  destruct (get (order st)) as [o|]; [|discriminate].
  destruct (_draft_reply _ _ o) as [r|e]; simpl; [|discriminate].
  intros [= <-]. by exists r.
Qed.

Lemma ingest_node_ok st st' :
  ingest_node st = OK st' →
  ∃ oid msgs, st' = set_order_id oid (set_messages msgs st).
Proof.
  unfold ingest_node. destruct (ticket_text st) as [t|]; [|discriminate].
  intros [= <-]. eauto.
Qed.

(** C1. Whenever a stage node returns a state, every key the stage does not
    own (Ingest owns [order_id] and [messages]; Classify owns [issue_type],
    [evidence] and [recommendation]; FetchOrder owns [order]; DraftReply owns
    [reply_text]) has the value it had in the input state; in particular no
    stage changes [ticket_text]. *)
Theorem stage_frame (ISSUES : list IssueRule) (REPLIES : list ReplyTemplate)
    (ORDERS : list (gmap string json)) (s : Stage) (st st' : TriageState) :
  node_of ISSUES REPLIES ORDERS s st = OK st' →
  (∀ f, f ∉ owns s → same_field f st' st) ∧ ticket_text st' = ticket_text st.
Proof.
  intros Hrun.
  assert (∀ f, f ∉ owns s → same_field f st' st) as Hframe.
  { intros f Hf. destruct s; simpl in Hrun.
    - apply ingest_node_ok in Hrun as (oid & msgs & ->).
      destruct f; try reflexivity; exfalso; apply Hf; repeat constructor.
    - rewrite classify_issue_node_eq in Hrun. injection Hrun as <-.
      destruct f; try reflexivity; exfalso; apply Hf; repeat constructor.
    - apply fetch_order_node_ok in Hrun as (o & ->).
      destruct f; try reflexivity; exfalso; apply Hf; repeat constructor.
    - apply draft_reply_node_ok in Hrun as (r & ->).
      destruct f; try reflexivity; exfalso; apply Hf; repeat constructor. }
  split; [exact Hframe|].
  apply (Hframe F_ticket_text).
  destruct s; simpl; intros H;
    repeat (apply elem_of_cons in H as [H|H]; [discriminate|]);
    by apply elem_of_nil in H.
Qed.


(** ** Ingest: extraction of the order id *)

Lemma take_drop n s : Text.take n s +:+ Text.drop n s = s.
Proof.
  revert s. induction n as [|n IH]; intros [|c s]; simpl; try done.
  by rewrite app_cons, IH.
Qed.

Lemma length_take n s : n ≤ String.length s → String.length (Text.take n s) = n.
Proof.
  revert s. induction n as [|n IH]; intros [|c s]; simpl; try lia.
  intros H. rewrite IH; lia.
Qed.

Lemma take_length_app d rest : Text.take (String.length d) (d +:+ rest) = d.
Proof.
  induction d as [|c d IH]; [by destruct rest|].
  rewrite app_cons. simpl. by rewrite IH.
Qed.

Lemma drop_length_app d rest : Text.drop (String.length d) (d +:+ rest) = rest.
Proof.
  induction d as [|c d IH]; [by destruct rest|].
  rewrite app_cons. simpl. by rewrite IH.
Qed.

(** [d] is one character when it is as long as its first byte announces. *)
Lemma app_empty_r s : s +:+ "" = s.
Proof. induction s as [|c s IH]; [done|]. by rewrite app_cons, IH. Qed.

Lemma take_length s : Text.take (String.length s) s = s.
Proof. induction s as [|c s IH]; simpl; [done|]. by rewrite IH. Qed.

Lemma drop_length s : Text.drop (String.length s) s = "".
Proof. induction s as [|c s IH]; simpl; done. Qed.

Lemma one_char_spec d :
  Text.take_char d = Some (d, "") ↔
  ∃ c d', d = String c d' ∧ Text.utf8_width c = String.length d.
Proof.
  destruct d as [|c d'].
  { split; [done|]. by intros (? & ? & ? & ?). }
  unfold Text.take_char. split.
  - destruct (Text.utf8_width c) as [|w] eqn:Hw; [done|].
    destruct (Nat.leb_spec (S w) (String.length (String c d'))) as [Hle|]; [|done].
    intros H. exists c, d'. split; [done|].
    assert (Text.take (S w) (String c d') = String c d') as Ht by congruence.
    rewrite Hw, <- (length_take _ _ Hle). by rewrite Ht.
  - intros (c0 & d0 & [= <- <-] & Hw). rewrite Hw.
    cbn [String.length]. rewrite Nat.leb_refl.
    change (S (String.length d')) with (String.length (String c d')).
    by rewrite take_length, drop_length.
Qed.

Lemma take_char_Some s d rest :
  Text.take_char s = Some (d, rest) →
  s = d +:+ rest ∧ Text.take_char d = Some (d, "").
Proof.
  unfold Text.take_char at 1. destruct s as [|c s']; [done|].
  destruct (Text.utf8_width c) as [|w] eqn:Hw; [done|].
  destruct (Nat.leb_spec (S w) (String.length (String c s'))) as [Hle|]; [|done].
  intros H.
  assert (d = Text.take (S w) (String c s') ∧ rest = Text.drop (S w) (String c s'))
    as [-> ->] by (split; congruence).
  split; [by rewrite take_drop|].
  apply one_char_spec. exists c, (Text.take w s'). split; [done|].
  by rewrite Hw, length_take.
Qed.

Lemma take_char_hit d rest :
  Text.take_char d = Some (d, "") → Text.take_char (d +:+ rest) = Some (d, rest).
Proof.
  intros (c & d' & -> & Hw)%one_char_spec.
  unfold Text.take_char. rewrite app_cons, <- app_cons, Hw.
  cbn [String.length]. rewrite length_app.
  destruct (Nat.leb_spec (S (String.length d'))
              (String.length (String c d') + String.length rest)) as [_|Hlt];
    [|simpl in Hlt; lia].
  change (S (String.length d')) with (String.length (String c d')).
  by rewrite take_length_app, drop_length_app.
Qed.

Lemma take_digits_Some n s ds rest :
  Text.take_digits U n s = Some (ds, rest) → s = ds +:+ rest ∧ digits n ds.
Proof.
  revert s ds rest. induction n as [|n IH]; intros s ds rest; simpl.
  - by intros [= <- <-].
  - destruct (Text.take_char s) as [[d r]|] eqn:Hc; [|done].
    destruct (Text.is_digit U d) eqn:Hd; [|done].
    destruct (Text.take_digits U n r) as [[ds' r']|] eqn:Hn; [|done].
    intros [= <- <-].
    apply take_char_Some in Hc as [-> Hone].
    apply IH in Hn as [-> Hds].
    split; [by rewrite app_assoc'|]. by exists d, ds'.
Qed.

Lemma take_digits_hit n ds post :
  digits n ds → Text.take_digits U n (ds +:+ post) = Some (ds, post).
Proof.
  revert ds. induction n as [|n IH]; intros ds; simpl.
  - by intros ->.
  - intros (d & rest & -> & [Hone Hd] & Hrest).
    rewrite app_assoc', (take_char_hit _ _ Hone), Hd.
    by rewrite (IH _ Hrest).
Qed.

Lemma match_order_token_Some s m :
  Text.match_order_token U s = Some m → order_token m ∧ occurs_after "" m s.
Proof.
  unfold Text.match_order_token.
  destruct s as [|c1 [|c2 [|c3 rest]]]; try discriminate.
  destruct (_ && _) eqn:Hcond; [|discriminate].
  destruct (Text.take_digits U 4 rest) as [[ds post]|] eqn:Hds; [|discriminate].
  intros [= <-].
  repeat (apply andb_true_iff in Hcond as [Hcond ?]).
  repeat match goal with H : Ascii.eqb _ _ = true |- _ => apply Ascii.eqb_eq in H end.
  apply take_digits_Some in Hds as [-> Hds].
  split.
  - exists c1, c2, c3, ds. by repeat split.
  - by exists post.
Qed.

Lemma match_order_token_hit m post :
  order_token m → Text.match_order_token U (m +:+ post) = Some m.
Proof.
  intros (c1 & c2 & c3 & ds & -> & H1 & H2 & H3 & Hds).
  rewrite !app_cons. unfold Text.match_order_token.
  by rewrite H1, H2, H3, (take_digits_hit _ _ _ Hds).
Qed.

Lemma search_order_token_here s m :
  Text.match_order_token U s = Some m → Text.search_order_token U s = Some m.
Proof. intros H. destruct s; simpl in *; by rewrite ?H. Qed.

(** The search returns the match that starts first. *)
Lemma search_order_token_leftmost pre m text :
  order_token m → occurs_after pre m text →
  (∀ pre' m', order_token m' → occurs_after pre' m' text →
     String.length pre ≤ String.length pre') →
  Text.search_order_token U text = Some m.
Proof.
  intros Hm [post ->]. revert m post Hm.
  induction pre as [|c pre IH]; intros m post Hm Hleft.
  - rewrite ?app_empty_l.
    by apply search_order_token_here, match_order_token_hit.
  - rewrite app_cons. cbn [Text.search_order_token].
    destruct (Text.match_order_token U _) as [m'|] eqn:E.
    + apply match_order_token_Some in E as [Hm' Hocc].
      rewrite <- app_cons in Hocc.
      specialize (Hleft _ _ Hm' Hocc). simpl in Hleft. lia.
    + apply IH; [done|].
      intros pre' m' Hm' [post' E'].
      assert (occurs_after (String c pre') m' (String c pre +:+ m +:+ post)) as Hocc.
      { exists post'. by rewrite !app_cons, E'. }
      specialize (Hleft _ _ Hm' Hocc). simpl in Hleft. lia.
Qed.

Lemma search_order_token_Some text m :
  Text.search_order_token U text = Some m →
  ∃ pre, order_token m ∧ occurs_after pre m text ∧
    ∀ pre' m', order_token m' → occurs_after pre' m' text →
      String.length pre ≤ String.length pre'.
Proof.
  revert m. induction text as [|c text IH]; intros m.
  - simpl. discriminate.
  - cbn [Text.search_order_token].
    destruct (Text.match_order_token U _) as [m0|] eqn:E.
    + intros [= <-]. apply match_order_token_Some in E as [Hm Hocc].
      exists "". repeat split; [done..|]. intros; simpl; lia.
    + intros Hs. destruct (IH _ Hs) as (pre & Hm & [post ->] & Hleft).
      exists (String c pre). repeat split; [done|by exists post|].
      intros pre' m' Hm' [post' E'].
      destruct pre' as [|c' pre'].
      * rewrite app_empty_l in E'. rewrite E' in E.
        by rewrite match_order_token_hit in E.
      * rewrite app_cons in E'. injection E' as <- E'.
        assert (occurs_after pre' m' (pre +:+ m +:+ post)) as Hocc
          by (by exists post').
        specialize (Hleft _ _ Hm' Hocc). simpl. lia.
Qed.

Lemma search_order_token_None text :
  Text.search_order_token U text = None →
  ∀ pre m, order_token m → ¬ occurs_after pre m text.
Proof.
  intros Hs pre m Hm [post ->]. revert Hs.
  induction pre as [|c pre IH].
  - rewrite ?app_empty_l.
    by rewrite (search_order_token_here _ m) by by apply match_order_token_hit.
  - rewrite app_cons. cbn [Text.search_order_token].
    destruct (Text.match_order_token U _); [discriminate|]. exact IH.
Qed.

Lemma order_token_nonempty m : order_token m → m ≠ "".
Proof. by intros (c1 & c2 & c3 & ds & -> & _). Qed.

(** An ASCII character that is a decimal digit is one of [0-9]. *)
Lemma digit_char_ascii d :
  Text.is_ascii d = true →
  digit_char d ↔ ∃ c, d = String c "" ∧ Text.is_ascii_digit c = true.
Proof.
  intros Ha. unfold digit_char. rewrite one_char_spec. split.
  - intros [(c & d' & -> & Hw) Hd]. exists c.
    simpl in Ha. apply andb_true_iff in Ha as [Hc _].
    unfold Text.utf8_width, Text.is_ascii_char in *. rewrite Hc in Hw.
    destruct d'; [|discriminate]. by split.
  - intros (c & -> & Hd). split; [|done]. exists c, "". split; [done|].
    simpl in Ha. apply andb_true_iff in Ha as [Hc _].
    unfold Text.utf8_width, Text.is_ascii_char in *. by rewrite Hc.
Qed.

Lemma is_ascii_digit_ascii c : Text.is_ascii_digit c = true → Text.is_ascii_char c = true.
Proof. destruct c as [[] [] [] [] [] [] [] []]; vm_compute; congruence. Qed.

(** For ASCII text a token is the letters and four of the digits [0-9]. *)
Lemma order_token_ascii m :
  Text.is_ascii m = true → order_token m ↔ ascii_order_token m.
Proof.
  intros Ha. split.
  - intros (c1 & c2 & c3 & ds & -> & H1 & H2 & H3 & Hds).
    cbn [Text.is_ascii] in Ha.
    repeat (apply andb_true_iff in Ha as [? Ha]).
    destruct Hds as (d1 & r1 & -> & Hd1 & d2 & r2 & -> & Hd2 & d3 & r3 & -> & Hd3
                     & d4 & r4 & -> & Hd4 & ->).
    rewrite !is_ascii_app in Ha.
    repeat (apply andb_true_iff in Ha as [? Ha]).
    apply digit_char_ascii in Hd1 as (x1 & -> & ?); [|done].
    apply digit_char_ascii in Hd2 as (x2 & -> & ?); [|done].
    apply digit_char_ascii in Hd3 as (x3 & -> & ?); [|done].
    apply digit_char_ascii in Hd4 as (x4 & -> & ?); [|done].
    by exists c1, c2, c3, x1, x2, x3, x4.
  - intros (c1 & c2 & c3 & d1 & d2 & d3 & d4 & -> & H1 & H2 & H3 & H4 & H5 & H6 & H7).
    exists c1, c2, c3, (String d1 (String d2 (String d3 (String d4 "")))).
    repeat split; try done.
    exists (String d1 ""), (String d2 (String d3 (String d4 ""))).
    split; [done|]. split.
    { apply digit_char_ascii; [simpl; by rewrite is_ascii_digit_ascii|by exists d1]. }
    exists (String d2 ""), (String d3 (String d4 "")).
    split; [done|]. split.
    { apply digit_char_ascii; [simpl; by rewrite is_ascii_digit_ascii|by exists d2]. }
    exists (String d3 ""), (String d4 "").
    split; [done|]. split.
    { apply digit_char_ascii; [simpl; by rewrite is_ascii_digit_ascii|by exists d3]. }
    exists (String d4 ""), "".
    split; [done|]. split; [|done].
    apply digit_char_ascii; [simpl; by rewrite is_ascii_digit_ascii|by exists d4].
Qed.

(** The upper-case form of an ASCII token is "ORD" followed by its four
    digits. *)
Lemma upper_order_token m :
  ascii_order_token m → Text.is_ascii m = true → normalized_order_id (Text.upper U m).
Proof.
  intros (c1 & c2 & c3 & d1 & d2 & d3 & d4 & -> & H1 & H2 & H3 & H4 & H5 & H6 & H7) Ha.
  rewrite (upper_ascii _ Ha).
  exists d1, d2, d3, d4. repeat split; try done. simpl.
  assert (∀ d, Text.is_ascii_digit d = true → Text.upper_char d = d) as Hd.
  { intros [[] [] [] [] [] [] [] []]; vm_compute; congruence. }
  assert (∀ c x, Text.lower_char c = x → Text.lower_char x = x →
            Text.upper_char c = Text.upper_char x) as Hc.
  { intros [[] [] [] [] [] [] [] []] x <-; vm_compute; congruence. }
  rewrite (Hc _ _ H1), (Hc _ _ H2), (Hc _ _ H3) by reflexivity.
  by rewrite (Hd d1), (Hd d2), (Hd d3), (Hd d4).
Qed.

(** C4 (amended). For every state with [ticket_text] present, Ingest
    succeeds.  When [order_id] is falsy (missing, [None] or the empty
    string): if the text contains "ORD" in any letter case plus four decimal
    digits, [order_id] becomes the upper-case form of the first such match;
    if it contains none, [order_id] keeps the value [state.get("order_id")]
    had.  When the caller supplied a non-empty [order_id], it is kept and
    nothing is extracted.  In ASCII text the decimal digits are [0-9]. *)
Theorem ingest_order_id (st : TriageState) (text : string) :
  ticket_text st = Some text →
  ∃ st', ingest_node st = OK st' ∧
    (falsy (get (order_id st)) = true →
       (∀ pre0 m0, order_token m0 → occurs_after pre0 m0 text →
          ∃ pre m, order_token m ∧ occurs_after pre m text ∧
            (∀ pre' m', order_token m' → occurs_after pre' m' text →
               String.length pre ≤ String.length pre') ∧
            order_id st' = Some (Some (Text.upper U m))) ∧
       (∀ pre m, order_token m → occurs_after pre m text →
          (∀ pre' m', order_token m' → occurs_after pre' m' text →
             String.length pre ≤ String.length pre') →
          order_id st' = Some (Some (Text.upper U m))) ∧
       ((∀ pre m, order_token m → ¬ occurs_after pre m text) →
          order_id st' = Some (get (order_id st)))) ∧
    (∀ oid, get (order_id st) = Some oid → oid ≠ "" →
       order_id st' = Some (Some oid)) ∧
    (∀ m, Text.is_ascii m = true →
       (order_token m ↔ ascii_order_token m) ∧
       (order_token m → normalized_order_id (Text.upper U m))).
Proof.
  intros Htext. unfold ingest_node. rewrite Htext.
  eexists. split; [reflexivity|]. simpl. split; [|split].
  - intros ->. repeat split.
    + intros pre0 m0 Hm0 Hocc0.
      destruct (Text.search_order_token U text) as [m|] eqn:Hs.
      * destruct (search_order_token_Some _ _ Hs) as (pre & Hm & Hocc & Hleft).
        by exists pre, m.
      * by destruct (search_order_token_None _ Hs pre0 _ Hm0).
    + intros pre m Hm Hocc Hleft.
      by rewrite (search_order_token_leftmost _ _ _ Hm Hocc Hleft).
    + intros Hnone.
      destruct (Text.search_order_token U text) as [m|] eqn:Hs; [|done].
      destruct (search_order_token_Some _ _ Hs) as (pre & Hm & Hocc & _).
      by destruct (Hnone pre _ Hm).
  - intros oid -> Hne. destruct oid; [done|reflexivity].
  - intros m Ha. split; [by apply order_token_ascii|].
    intros Hm. apply upper_order_token; [by apply order_token_ascii|done].
Qed.

(** ** FetchOrder *)

Lemma json_eq_str_true v s : json_eq_str v s = true ↔ v = JStr s.
Proof.
  destruct v; simpl; try (split; [discriminate|congruence]).
  rewrite String.eqb_eq. split; congruence.
Qed.

Lemma find_order_miss rows oid :
  keyed rows →
  Forall (λ o : gmap string json, o !! "order_id" ≠ Some (JStr oid)) rows →
  find_order rows oid = OK None.
Proof.
  intros Hkeyed Hnone.
  induction Hnone as [|o rows Ho _ IH]; simpl; [done|].
  apply Forall_cons in Hkeyed as [[v Hv] Hkeyed]. rewrite Hv.
  destruct (json_eq_str v oid) eqn:E; [|by apply IH].
  apply json_eq_str_true in E as ->. by destruct Ho.
Qed.

Lemma find_order_hit pre (o : gmap string json) post oid :
  keyed pre →
  Forall (λ o' : gmap string json, o' !! "order_id" ≠ Some (JStr oid)) pre →
  o !! "order_id" = Some (JStr oid) →
  find_order (pre ++ o :: post) oid = OK (Some o).
Proof.
  intros Hkeyed Hnone Ho.
  induction Hnone as [|o' pre Ho' _ IH]; simpl.
  - rewrite Ho. simpl. by rewrite String.eqb_refl.
  - apply Forall_cons in Hkeyed as [[v Hv] Hkeyed]. rewrite Hv.
    destruct (json_eq_str v oid) eqn:E; [|by apply IH].
    apply json_eq_str_true in E as ->. by destruct Ho'.
Qed.

Lemma find_order_raise rows oid e :
  find_order rows oid = Raise e → e = KeyError "order_id".
Proof.
  induction rows as [|o rows IH]; simpl; [discriminate|].
  destruct (o !! "order_id"); [|congruence]. by destruct (json_eq_str _ _).
Qed.

Lemma dict_truthy_lookup (o : gmap string json) k v :
  o !! k = Some v → dict_truthy o = true.
Proof.
  intros Hk. unfold dict_truthy. apply negb_true_iff, bool_decide_eq_false.
  intros ->. by rewrite lookup_empty in Hk.
Qed.

Lemma fetch_order_node_falsy ORDERS st :
  falsy (get (order_id st)) = true →
  fetch_order_node ORDERS st = Raise MissingField_order_id.
Proof.
  unfold fetch_order_node. destruct (get (order_id st)) as [oid|]; [|done].
  simpl. by intros ->.
Qed.

Lemma fetch_order_node_falsy_not_NotFound ORDERS st :
  falsy (get (order_id st)) = true →
  ∀ oid, fetch_order_node ORDERS st ≠ Raise (NotFound oid).
Proof.
  intros Hf oid. rewrite fetch_order_node_falsy by done.
  by intros [=].
Qed.

Lemma fetch_order_node_truthy ORDERS st oid :
  get (order_id st) = Some oid → oid ≠ "" →
  fetch_order_node ORDERS st =
    order ← find_order ORDERS oid;
    match order with
    | Some o =>
        if dict_truthy o then OK (set_order (Some o) st)
        else Raise (NotFound oid)
    | None => Raise (NotFound oid)
    end.
Proof.
  intros Hget Hne. unfold fetch_order_node. rewrite Hget.
  destruct oid; [done|reflexivity].
Qed.

(** C5 (amended). FetchOrder raises the missing-order-id error if and only
    if [order_id] is falsy (missing, [None] or the empty string), and then
    never the not-found error.  With a non-empty [order_id] and an orders
    table whose records all carry an [order_id]: if no record has exactly
    that id it raises the not-found error (no state is returned); otherwise
    it succeeds and the returned state is the input state with [order] set
    to the first record with that id. *)
Theorem fetch_order_cases (ORDERS : list (gmap string json)) (st : TriageState) :
  (fetch_order_node ORDERS st = Raise MissingField_order_id ↔
     falsy (get (order_id st)) = true) ∧
  (falsy (get (order_id st)) = true →
     ∀ oid, fetch_order_node ORDERS st ≠ Raise (NotFound oid)) ∧
  (∀ oid, get (order_id st) = Some oid → oid ≠ "" → keyed ORDERS →
     (Forall (λ o : gmap string json, o !! "order_id" ≠ Some (JStr oid)) ORDERS →
        fetch_order_node ORDERS st = Raise (NotFound oid)) ∧
     (∀ pre o post,
        ORDERS = pre ++ o :: post →
        Forall (λ o' : gmap string json, o' !! "order_id" ≠ Some (JStr oid)) pre →
        o !! "order_id" = Some (JStr oid) →
        fetch_order_node ORDERS st = OK (set_order (Some o) st))).
Proof.
  split; [split|split].
  - intros Hraise. destruct (falsy (get (order_id st))) eqn:Hf; [done|exfalso].
    destruct (get (order_id st)) as [[|c oid]|] eqn:Hget; try discriminate.
    rewrite (fetch_order_node_truthy _ _ _ Hget) in Hraise by done.
    destruct (find_order ORDERS _) as [[o|]|e] eqn:Hfind; simpl in Hraise;
      [destruct (dict_truthy o)|..]; try discriminate.
    apply find_order_raise in Hfind as ->. discriminate.
  - apply fetch_order_node_falsy.
  - apply fetch_order_node_falsy_not_NotFound.
  - intros oid Hget Hne Hkeyed.
    rewrite (fetch_order_node_truthy _ _ _ Hget Hne). split.
    + intros Hnone. by rewrite find_order_miss.
    + intros pre o post -> Hnone Ho.
      apply Forall_app in Hkeyed as [Hkeyed _].
      rewrite find_order_hit by done. simpl.
      by rewrite (dict_truthy_lookup _ _ _ Ho).
Qed.


(** C10. For every state whose [order_id] is present but is the empty
    string, FetchOrder raises the missing-order-id error, not the not-found
    error. *)
Theorem fetch_order_empty_order_id (ORDERS : list (gmap string json))
    (st : TriageState) :
  order_id st = Some (Some "") →
  fetch_order_node ORDERS st = Raise MissingField_order_id ∧
  ∀ oid, fetch_order_node ORDERS st ≠ Raise (NotFound oid).
Proof.
  intros Hoid.
  assert (falsy (get (order_id st)) = true) as Hf by (by rewrite Hoid).
  split; [by apply fetch_order_node_falsy|].
  by apply fetch_order_node_falsy_not_NotFound.
Qed.


(** ** Facts about [str.replace] *)

Lemma startswith_length p s :
  Text.startswith p s = true → String.length p ≤ String.length s.
Proof.
  intros [r ->]%startswith_spec. rewrite length_app. lia.
Qed.

(** A character that does not occur in the pattern stops every match. *)
Lemma startswith_sep p c s t :
  Text.has_char c p = false →
  Text.startswith p (s +:+ String c t) = Text.startswith p s.
Proof.
  revert s. induction p as [|a p IH]; intros s Hc; [done|].
  simpl in Hc. apply orb_false_iff in Hc as [Hac Hp].
  destruct s as [|b s].
  - rewrite app_empty_l. simpl. by rewrite Hac.
  - rewrite app_cons. simpl. by rewrite IH.
Qed.

Lemma replace_from_skip old new p s :
  Text.replace_from old new (String.length p) (p +:+ s) =
  Text.replace_from old new 0 s.
Proof.
  induction p as [|c p IH]; [by destruct s|].
  rewrite app_cons. simpl. exact IH.
Qed.

Lemma replace_from_sep old new c a b k :
  old ≠ "" → Text.has_char c old = false → k ≤ String.length a →
  Text.replace_from old new k (a +:+ String c b) =
  Text.replace_from old new k a +:+ String c (Text.replace_from old new 0 b).
Proof.
  intros Hold Hc. revert k. induction a as [|x a IH]; intros k Hk.
  - simpl in Hk. assert (k = 0) as -> by lia.
    rewrite !app_empty_l. cbn [Text.replace_from].
    replace (Text.startswith old (String c b)) with false; [done|].
    symmetry. rewrite <- (app_empty_l (String c b)), startswith_sep by done.
    by destruct old.
  - rewrite app_cons. destruct k as [|k]; cbn [Text.replace_from].
    + rewrite <- app_cons, startswith_sep by done.
      destruct (Text.startswith old (String x a)) eqn:Hst.
      * apply startswith_length in Hst. simpl in Hst.
        rewrite IH by lia. by rewrite app_assoc'.
      * rewrite IH by lia. by rewrite app_cons.
    + simpl in Hk. apply IH. lia.
Qed.

(** A string without occurrence of the pattern is returned unchanged. *)
Lemma replace_absent old new s :
  old ≠ "" → Text.contains old s = false → Text.replace old new s = s.
Proof.
  intros Hold. unfold Text.replace. destruct old as [|a old]; [done|].
  induction s as [|c s IH]; [done|].
  cbn [Text.contains Text.replace_from]. intros [Hst Hs]%orb_false_iff.
  by rewrite Hst, IH.
Qed.

(** An occurrence of the pattern at the head is replaced, and the scan
    goes on behind it. *)
Lemma replace_head old new s :
  old ≠ "" →
  Text.replace old new (old +:+ s) = new +:+ Text.replace old new s.
Proof.
  intros Hold. unfold Text.replace. destruct old as [|a old]; [done|].
  rewrite app_cons. cbn [Text.replace_from].
  rewrite <- app_cons, (proj2 (startswith_spec _ _)) by eauto.
  replace (String.length (String a old) - 1) with (String.length old)
    by (simpl; lia).
  by rewrite replace_from_skip.
Qed.

(** A character that starts no occurrence is copied. *)
Lemma replace_step old new c s :
  old ≠ "" → Text.startswith old (String c s) = false →
  Text.replace old new (String c s) = String c (Text.replace old new s).
Proof.
  intros Hold Hst. unfold Text.replace. destruct old as [|a old]; [done|].
  cbn [Text.replace_from]. by rewrite Hst.
Qed.

(** ** DraftReply *)

Lemma first_template_match_hit pre row post it :
  Forall (λ r, tpl_issue_type r ≠ it) pre →
  tpl_issue_type row = it →
  first_template_match (pre ++ row :: post) it = Some (tpl_template row).
Proof.
  intros Hpre Hrow. induction Hpre as [|r pre Hr _ IH]; simpl.
  - by rewrite (proj2 (String.eqb_eq _ _) Hrow).
  - by rewrite (proj2 (String.eqb_neq _ _) Hr).
Qed.

Lemma first_template_match_miss rows it :
  Forall (λ r, tpl_issue_type r ≠ it) rows →
  first_template_match rows it = None.
Proof.
  induction 1 as [|r rows Hr _ IH]; simpl; [done|].
  by rewrite (proj2 (String.eqb_neq _ _) Hr).
Qed.

(** The fallback template after both substitutions. *)
Lemma render_fallback name oid :
  Text.replace "{{order_id}}" oid
    (Text.replace "{{customer_name}}" name fallback_template) =
  "Hi " +:+ Text.replace "{{order_id}}" oid name +:+
  ", thanks for reaching out about order " +:+ oid +:+
  ". Our team is reviewing your request and will follow up shortly.".
Proof.
  assert (Text.replace "{{customer_name}}" name fallback_template =
          "Hi " +:+ name +:+
          String "," " thanks for reaching out about order {{order_id}}. Our team is reviewing your request and will follow up shortly.")
    as -> by reflexivity.
  rewrite !app_cons, app_empty_l.
  rewrite !replace_step by done.
  unfold Text.replace at 1.
  rewrite replace_from_sep by (done || lia).
  reflexivity.
Qed.

Lemma draft_reply_node_eq REPLIES st o :
  get (order st) = Some o →
  draft_reply_node REPLIES st =
    reply_text ← _draft_reply REPLIES (issue_type_or_other st) o;
    OK (set_reply_text (Some reply_text) st).
Proof. intros Ho. unfold draft_reply_node. by rewrite Ho. Qed.

(** C6 (amended). For every state whose [order] is a record in which
    [customer_name] and [order_id], when present, are strings, DraftReply
    succeeds and sets [reply_text] to the selected template with every
    occurrence of the customer-name placeholder literally replaced by the
    customer name (["there"] when the record has none) and then every
    occurrence of the order-id placeholder by the order id ([""] when the
    record has none).  The template is that of the first row of the reply
    table for the issue type ([state.get("issue_type") or "other"]), and the
    fixed generic template when no row matches; in that case the reply is
    non-empty and has both placeholders substituted. *)
Theorem draft_reply_renders (REPLIES : list ReplyTemplate) (st : TriageState)
    (o : gmap string json) (name oid : string) :
  get (order st) = Some o →
  default (JStr "there") (o !! "customer_name") = JStr name →
  default (JStr "") (o !! "order_id") = JStr oid →
  ∃ template reply,
    draft_reply_node REPLIES st = OK (set_reply_text (Some reply) st) ∧
    reply = Text.replace "{{order_id}}" oid
              (Text.replace "{{customer_name}}" name template) ∧
    (∀ pre row post,
        REPLIES = pre ++ row :: post →
        Forall (λ r, tpl_issue_type r ≠ issue_type_or_other st) pre →
        tpl_issue_type row = issue_type_or_other st →
        template = tpl_template row) ∧
    (Forall (λ r, tpl_issue_type r ≠ issue_type_or_other st) REPLIES →
        template = fallback_template ∧
        reply = "Hi " +:+ Text.replace "{{order_id}}" oid name +:+
                ", thanks for reaching out about order " +:+ oid +:+
                ". Our team is reviewing your request and will follow up shortly." ∧
        reply ≠ "").
Proof.
  intros Ho Hname Hoid.
  exists (default fallback_template
            (first_template_match REPLIES (issue_type_or_other st))).
  eexists. split; [|split; [reflexivity|split]].
  - rewrite (draft_reply_node_eq _ _ _ Ho). unfold _draft_reply.
    by rewrite Hname, Hoid.
  - intros pre row post -> Hpre Hrow.
    by rewrite first_template_match_hit.
  - intros Hnone. rewrite first_template_match_miss by done.
    change (default fallback_template None) with fallback_template.
    split; [done|]. rewrite render_fallback. split; [done|discriminate].
Qed.



(** ** The executor *)

(** The compiled triage graph runs the four nodes in order and stops at the
    first exception. *)
Lemma run_graph_triage add_messages ISSUES REPLIES ORDERS st :
  run_graph add_messages (graph ISSUES REPLIES ORDERS) st =
  match ingest_node st with
  | Raise e => (["ingest"], Raise e)
  | OK w1 =>
      let s1 := apply_writes add_messages st w1 in
      match classify_issue_node ISSUES s1 with
      | Raise e => (["ingest"; "classify_issue"], Raise e)
      | OK w2 =>
          let s2 := apply_writes add_messages s1 w2 in
          match fetch_order_node ORDERS s2 with
          | Raise e => (["ingest"; "classify_issue"; "fetch_order"], Raise e)
          | OK w3 =>
              let s3 := apply_writes add_messages s2 w3 in
              match draft_reply_node REPLIES s3 with
              | Raise e =>
                  (["ingest"; "classify_issue"; "fetch_order"; "draft_reply"], Raise e)
              | OK w4 =>
                  (["ingest"; "classify_issue"; "fetch_order"; "draft_reply"],
                   OK (apply_writes add_messages s3 w4))
              end
          end
      end
  end.
Proof.
  unfold run_graph, graph, build_triage_graph.
  cbn -[ingest_node classify_issue_node fetch_order_node draft_reply_node apply_writes].
  destruct (ingest_node st) as [w1|e]; [|reflexivity].
  cbn -[ingest_node classify_issue_node fetch_order_node draft_reply_node apply_writes].
  destruct (classify_issue_node ISSUES _) as [w2|e]; [|reflexivity].
  cbn -[ingest_node classify_issue_node fetch_order_node draft_reply_node apply_writes].
  destruct (fetch_order_node ORDERS _) as [w3|e]; [|reflexivity].
  cbn -[ingest_node classify_issue_node fetch_order_node draft_reply_node apply_writes].
  destruct (draft_reply_node REPLIES _) as [w4|e]; reflexivity.
Qed.

(** C2. Whenever the FetchOrder stage fails during a run of the pipeline
    (with the missing-order-id error, the not-found error, or any other
    exception), the executor has run Ingest, Classify and FetchOrder and
    nothing else: DraftReply is not executed, and the run's result is that
    exception, with no state (so no [reply_text]) returned. *)
Theorem pipeline_halts_at_fetch_order
    (add_messages : list BaseMessage → list BaseMessage → list BaseMessage)
    (ISSUES : list IssueRule) (REPLIES : list ReplyTemplate)
    (ORDERS : list (gmap string json)) (st0 w1 w2 : TriageState) (e : exn) :
  ingest_node st0 = OK w1 →
  classify_issue_node ISSUES (apply_writes add_messages st0 w1) = OK w2 →
  fetch_order_node ORDERS
    (apply_writes add_messages (apply_writes add_messages st0 w1) w2) = Raise e →
  executed add_messages (graph ISSUES REPLIES ORDERS) st0
    = ["ingest"; "classify_issue"; "fetch_order"] ∧
  ¬ "draft_reply" ∈ executed add_messages (graph ISSUES REPLIES ORDERS) st0 ∧
  invoke add_messages (graph ISSUES REPLIES ORDERS) st0 = Raise e.
Proof.
  intros H1 H2 H3. unfold executed, invoke.
  rewrite run_graph_triage, H1. cbn zeta. rewrite H2. cbn zeta. rewrite H3.
  cbn [fst snd]. repeat split.
  intros H. repeat (apply elem_of_cons in H as [H|H]; [discriminate|]).
  by apply elem_of_nil in H.
Qed.


(** ** The endpoint's error mapping *)

Lemma fetch_order_node_raise ORDERS st e :
  fetch_order_node ORDERS st = Raise e →
  e = MissingField_order_id ∨ e = KeyError "order_id" ∨ ∃ oid, e = NotFound oid.
Proof.
  unfold fetch_order_node.
  destruct (get (order_id st)) as [oid|]; [|intros [= <-]; by left].
  destruct (negb (Text.truthy oid)); [intros [= <-]; by left|].
  destruct (find_order ORDERS oid) as [[o|]|e'] eqn:Hfind; simpl.
  - destruct (dict_truthy o); [discriminate|]. intros [= <-]. right; right. by exists oid.
  - intros [= <-]. right; right. by exists oid.
  - intros [= <-]. right; left. by apply find_order_raise in Hfind.
Qed.

Lemma draft_reply_node_raise REPLIES st e :
  draft_reply_node REPLIES st = Raise e →
  e = MissingField_order ∨ ∃ msg, e = TypeError msg.
Proof.
  unfold draft_reply_node.
  destruct (get (order st)) as [o|]; [|intros [= <-]; by left].
  unfold _draft_reply, str_replace.
  destruct (default (JStr "there") (o !! "customer_name"));
    destruct (default (JStr "") (o !! "order_id")); simpl;
    intros [= <-]; right; eauto.
Qed.

(** The Ingest stage's missing-ticket-text error cannot arise through the
    endpoint, whose initial state always contains [ticket_text]; the
    handler has no branch of its own for that message, which it would answer
    with status 500 like every message other than FetchOrder's two. *)
Theorem ticket_text_error_mapping
    (add_messages : list BaseMessage → list BaseMessage → list BaseMessage)
    (ISSUES : list IssueRule) (REPLIES : list ReplyTemplate)
    (ORDERS : list (gmap string json)) (body : TriageInput) :
  on_value_error "ticket_text is required in state for ingest_node"
    = HTTPException 500 "ticket_text is required in state for ingest_node" ∧
  invoke add_messages (graph ISSUES REPLIES ORDERS) (initial_state body)
    ≠ Raise MissingField_ticket_text.
Proof.
  split; [reflexivity|]. unfold invoke. rewrite run_graph_triage.
  cbn -[classify_issue_node fetch_order_node draft_reply_node apply_writes].
  rewrite classify_issue_node_eq. cbn zeta.
  destruct (fetch_order_node ORDERS _) as [w3|e] eqn:Hfetch.
  - destruct (draft_reply_node REPLIES _) as [w4|e] eqn:Hdraft; [done|].
    cbn [snd]. apply draft_reply_node_raise in Hdraft as [->|[msg ->]]; discriminate.
  - cbn [snd]. apply fetch_order_node_raise in Hfetch as [->|[->|[oid ->]]];
      discriminate.
Qed.


(** * Further properties of the nodes *)

(** ** Ingest *)

Lemma ingest_node_eq st text :
  ticket_text st = Some text →
  ingest_node st =
  OK (set_order_id
        (if falsy (get (order_id st))
         then match Text.search_order_token U text with
              | Some m => Some (Text.upper U m)
              | None => get (order_id st)
              end
         else get (order_id st))
        (set_messages (default [] (messages st) ++ [HumanMessage text]) st)).
Proof. intros H. unfold ingest_node. by rewrite H. Qed.

Lemma get_Some {A : Type} (x : option A) : get (Some x) = x.
Proof. by destruct x. Qed.

Lemma ingest_node_raise st e :
  ingest_node st = Raise e → ticket_text st = None ∧ e = MissingField_ticket_text.
Proof.
  unfold ingest_node. destruct (ticket_text st); [discriminate|].
  by intros [= <-].
Qed.

Lemma upper_token_truthy text m :
  Text.search_order_token U text = Some m → falsy (Some (Text.upper U m)) = false.
Proof.
  intros (pre & Hm%order_token_nonempty & _)%search_order_token_Some.
  destruct (Text.upper U m) eqn:E; [|done].
  by apply upper_empty in E.
Qed.

Lemma is_ascii_occurs pre m text :
  occurs_after pre m text → Text.is_ascii text = true → Text.is_ascii m = true.
Proof.
  intros [post ->]. rewrite !is_ascii_app.
  by intros [_ [? _]%andb_true_iff]%andb_true_iff.
Qed.

(** Running Ingest on its own result keeps the order id it produced; only
    the message trace grows, by one more copy of the ticket text. *)
Theorem ingest_twice (st st1 : TriageState) (text : string) :
  ticket_text st = Some text →
  ingest_node st = OK st1 →
  ∃ st2, ingest_node st1 = OK st2 ∧
    order_id st2 = order_id st1 ∧
    ticket_text st2 = Some text ∧
    messages st1 = Some (default [] (messages st) ++ [HumanMessage text]) ∧
    messages st2 =
      Some (default [] (messages st) ++ [HumanMessage text; HumanMessage text]).
Proof.
  intros Htext. rewrite (ingest_node_eq _ _ Htext). intros [= <-].
  eexists. split; [by apply ingest_node_eq|].
  cbn [order_id ticket_text messages set_order_id set_messages].
  rewrite get_Some.
  split; [|split; [done|split; [done|]]].
  2:{ change (default [] (Some ?l)) with l. by rewrite <- app_assoc. }
  f_equal.
  destruct (falsy (get (order_id st))) eqn:Hf.
  - destruct (Text.search_order_token U text) as [m|] eqn:Hs.
    + by rewrite (upper_token_truthy _ _ Hs).
    + by rewrite Hf.
  - by rewrite Hf.
Qed.


(** In ASCII text an order id that Ingest takes from the text is always
    "ORD" plus four of the digits 0-9, and is the upper-case form of a
    token of the text: whenever the incoming order id is falsy and the
    outgoing one is a non-empty string, that string has this shape. *)
Theorem ingest_extracted_shape (st st1 : TriageState) (text s : string) :
  ticket_text st = Some text →
  Text.is_ascii text = true →
  falsy (get (order_id st)) = true →
  ingest_node st = OK st1 →
  order_id st1 = Some (Some s) → s ≠ "" →
  normalized_order_id s ∧
  ∃ pre m, ascii_order_token m ∧ occurs_after pre m text ∧ s = Text.upper U m.
Proof.
  intros Htext Hascii Hf. rewrite (ingest_node_eq _ _ Htext), Hf. intros [= <-].
  cbn [order_id set_order_id].
  destruct (Text.search_order_token U text) as [m|] eqn:Hs.
  - intros [= <-] _.
    destruct (search_order_token_Some _ _ Hs) as (pre & Hm & Hocc & _).
    pose proof (is_ascii_occurs _ _ _ Hocc Hascii) as Ha.
    apply (order_token_ascii _ Ha) in Hm.
    split; [by apply upper_order_token|by exists pre, m].
  - intros [= Hget] Hne. rewrite Hget in Hf. by destruct s.
Qed.

(** ** Classify *)

Lemma lower_char_idem c : Text.lower_char (Text.lower_char c) = Text.lower_char c.
Proof. destruct c as [[] [] [] [] [] [] [] []]; reflexivity. Qed.

Lemma lower_upper_char c : Text.lower_char (Text.upper_char c) = Text.lower_char c.
Proof. destruct c as [[] [] [] [] [] [] [] []]; reflexivity. Qed.

Lemma is_ascii_lower_char c :
  Text.is_ascii_char (Text.lower_char c) = Text.is_ascii_char c.
Proof. destruct c as [[] [] [] [] [] [] [] []]; reflexivity. Qed.

Lemma is_ascii_upper_char c :
  Text.is_ascii_char (Text.upper_char c) = Text.is_ascii_char c.
Proof. destruct c as [[] [] [] [] [] [] [] []]; reflexivity. Qed.

Lemma is_ascii_ascii_lower s : Text.is_ascii (Text.ascii_lower s) = Text.is_ascii s.
Proof. induction s as [|c s IH]; simpl; [done|]. by rewrite is_ascii_lower_char, IH. Qed.

Lemma is_ascii_ascii_upper s : Text.is_ascii (Text.ascii_upper s) = Text.is_ascii s.
Proof. induction s as [|c s IH]; simpl; [done|]. by rewrite is_ascii_upper_char, IH. Qed.

Lemma ascii_lower_idem s :
  Text.ascii_lower (Text.ascii_lower s) = Text.ascii_lower s.
Proof. induction s as [|c s IH]; simpl; [done|]. by rewrite lower_char_idem, IH. Qed.

Lemma ascii_lower_upper s :
  Text.ascii_lower (Text.ascii_upper s) = Text.ascii_lower s.
Proof. induction s as [|c s IH]; simpl; [done|]. by rewrite lower_upper_char, IH. Qed.

Lemma lower_idem s :
  Text.is_ascii s = true → Text.lower U (Text.lower U s) = Text.lower U s.
Proof.
  intros H. rewrite (lower_ascii s H), lower_ascii by by rewrite is_ascii_ascii_lower.
  apply ascii_lower_idem.
Qed.

Lemma lower_upper s :
  Text.is_ascii s = true → Text.lower U (Text.upper U s) = Text.lower U s.
Proof.
  intros H. rewrite (upper_ascii s H), (lower_ascii s H).
  rewrite lower_ascii by by rewrite is_ascii_ascii_upper.
  apply ascii_lower_upper.
Qed.

Lemma contains_in_empty sub : Text.contains sub "" = true → sub = "".
Proof. by destruct sub. Qed.

Lemma first_issue_match_sound rows text_lower :
  (first_issue_match rows text_lower = "other" ∧
   Forall (λ r, Text.contains (Text.lower U (rule_keyword r)) text_lower = false) rows) ∨
  (∃ r, r ∈ rows ∧ first_issue_match rows text_lower = rule_issue_type r ∧
        Text.contains (Text.lower U (rule_keyword r)) text_lower = true).
Proof.
  induction rows as [|r rows IH]; simpl.
  - left. by split.
  - destruct (Text.contains _ _) eqn:Hr.
    + right. exists r. split; [by left|done].
    + destruct IH as [[Ho Hnone]|(r' & Hin & Hm & Hr')].
      * left. split; [done|]. by constructor.
      * right. exists r'. split; [by right|done].
Qed.

(** Classify never invents an issue type: the one it sets is either the
    issue type of a rule of the table whose keyword occurs in the text up to
    letter case, or ["other"] with no rule of the table matching. *)
Theorem classify_issue_type_sound (ISSUES : list IssueRule) (st : TriageState) :
  ∃ st' it,
    classify_issue_node ISSUES st = OK st' ∧ issue_type st' = Some (Some it) ∧
    ((∃ r, r ∈ ISSUES ∧ rule_issue_type r = it ∧
           ci_substring (rule_keyword r) (text_of st)) ∨
     (it = "other" ∧
      Forall (λ r, ¬ ci_substring (rule_keyword r) (text_of st)) ISSUES)).
Proof.
  do 2 eexists. split; [apply classify_issue_node_eq|]. split; [reflexivity|].
  simpl.
  destruct (first_issue_match_sound ISSUES (Text.lower U (text_of st)))
    as [[Ho Hnone]|(r & Hin & Hm & Hr)].
  - right. split; [done|]. eapply Forall_impl; [exact Hnone|].
    intros r Hr Hci. apply contains_lower_iff in Hci. congruence.
  - left. exists r. split; [done|]. split; [done|]. by apply contains_lower_iff.
Qed.

(** Classification does not depend on the letter case of an ASCII ticket
    text: its upper-case and its lower-case form are classified like the
    text itself. *)
Theorem classify_ignores_case (ISSUES : list IssueRule) (text : string) :
  Text.is_ascii text = true →
  _classify_issue_text ISSUES (Text.upper U text) = _classify_issue_text ISSUES text ∧
  _classify_issue_text ISSUES (Text.lower U text) = _classify_issue_text ISSUES text.
Proof.
  intros H. unfold _classify_issue_text. by rewrite lower_upper, lower_idem.
Qed.

(** With [ticket_text] missing or empty, Classify still succeeds: if no
    rule has an empty keyword, the issue type is ["other"], the
    recommendation is the fallback one, and the evidence still reads
    "Matched keyword". *)
Theorem classify_empty_text (ISSUES : list IssueRule) (st : TriageState) :
  text_of st = "" →
  Forall (λ r, rule_keyword r ≠ "") ISSUES →
  classify_issue_node ISSUES st =
  OK (set_recommendation (Some "Review ticket manually.")
       (set_evidence (Some "Matched keyword for issue_type=other")
         (set_issue_type (Some "other") st))).
Proof.
  intros Htext Hkeys. rewrite classify_issue_node_eq, Htext.
  unfold _classify_issue_text. simpl.
  rewrite first_issue_match_miss; [reflexivity|].
  eapply Forall_impl; [exact Hkeys|]. intros r Hr.
  apply not_true_is_false. intros Hc.
  by apply contains_in_empty, lower_empty in Hc.
Qed.


Lemma contains_empty s : Text.contains "" s = true.
Proof. by destruct s. Qed.

Lemma first_issue_match_cut pre r post text_lower :
  Text.contains (Text.lower U (rule_keyword r)) text_lower = true →
  first_issue_match (pre ++ r :: post) text_lower =
  first_issue_match (pre ++ [r]) text_lower.
Proof.
  intros Hr. induction pre as [|r' pre IH]; simpl.
  - by rewrite Hr.
  - by rewrite IH.
Qed.

(** A rule with an empty keyword matches every ticket text, so the rules
    listed after it are never used and the default ["other"] is never
    reached: the classification is that of the table cut after this rule,
    and the issue type is one of the remaining rules'. *)
Theorem classify_empty_keyword (pre post : list IssueRule) (r : IssueRule)
    (text : string) :
  rule_keyword r = "" →
  _classify_issue_text (pre ++ r :: post) text =
    _classify_issue_text (pre ++ [r]) text ∧
  ∃ r', r' ∈ pre ++ [r] ∧
    cls_issue_type (_classify_issue_text (pre ++ r :: post) text) = rule_issue_type r'.
Proof.
  intros Hk.
  assert (Text.contains (Text.lower U (rule_keyword r)) (Text.lower U text) = true)
    as Hr by (rewrite Hk; apply contains_empty).
  unfold _classify_issue_text.
  rewrite (first_issue_match_cut _ _ post _ Hr). split; [done|]. simpl.
  destruct (first_issue_match_sound (pre ++ [r]) (Text.lower U text))
    as [[_ Hnone]|(r' & Hin & Hm & _)].
  - apply Forall_app in Hnone as [_ Hnone].
    apply Forall_cons in Hnone as [Hnone _]. congruence.
  - by exists r'.
Qed.


Lemma recommendation_map_lookup it :
  recommendation_map !! it =
  if decide (it = "refund_request") then Some "Issue a refund after verification."
  else if decide (it = "damaged_item")
       then Some "Send a replacement and consider partial refund."
  else if decide (it = "late_delivery")
       then Some "Apologize and offer discount or refund shipping."
  else if decide (it = "missing_item")
       then Some "Ship the missing item and confirm address."
  else None.
Proof.
  unfold recommendation_map. cbn [list_to_map foldr uncurry].
  repeat (rewrite lookup_insert; case_decide; subst; [by repeat case_decide|]).
  rewrite lookup_empty. simpl in *. by repeat (case_decide; [congruence|]).
Qed.

(** The recommendation is never empty, and it is the fallback
    ["Review ticket manually."] exactly when the issue type Classify chose
    is none of the four types of the recommendation lookup. *)
Theorem classify_fallback_recommendation (ISSUES : list IssueRule) (st : TriageState) :
  ∃ st' it rec,
    classify_issue_node ISSUES st = OK st' ∧
    issue_type st' = Some (Some it) ∧ recommendation st' = Some (Some rec) ∧
    rec ≠ "" ∧
    (rec = "Review ticket manually." ↔
     it ∉ ["refund_request"; "damaged_item"; "late_delivery"; "missing_item"]).
Proof.
  do 3 eexists. split; [apply classify_issue_node_eq|].
  split; [reflexivity|]. split; [reflexivity|].
  cbn [cls_recommendation cls_issue_type _classify_issue_text].
  generalize (first_issue_match ISSUES (Text.lower U (text_of st))) as it.
  intros it. rewrite recommendation_map_lookup.
  destruct (decide (it = "refund_request")) as [->|H1];
    [|destruct (decide (it = "damaged_item")) as [->|H2];
      [|destruct (decide (it = "late_delivery")) as [->|H3];
        [|destruct (decide (it = "missing_item")) as [->|H4]]]];
    simpl; (split; [discriminate|]).
  1-4: split; [discriminate|intros Hn; destruct Hn; repeat constructor].
  split; [|done]. intros _ Hin.
  repeat (apply elem_of_cons in Hin as [Hin|Hin]; [congruence|]).
  by apply elem_of_nil in Hin.
Qed.

(** ** FetchOrder *)

Lemma find_order_spec rows oid :
  match find_order rows oid with
  | OK (Some o) =>
      ∃ pre post, rows = pre ++ o :: post ∧
        o !! "order_id" = Some (JStr oid) ∧ Forall (other_id oid) pre
  | OK None => Forall (other_id oid) rows
  | Raise e =>
      e = KeyError "order_id" ∧
      ∃ pre o post, rows = pre ++ o :: post ∧
        o !! "order_id" = None ∧ Forall (other_id oid) pre
  end.
Proof.
  induction rows as [|o rows IH]; simpl; [constructor|].
  destruct (o !! "order_id") as [v|] eqn:Hv.
  - destruct (json_eq_str v oid) eqn:E.
    + apply json_eq_str_true in E as ->. by exists [], rows.
    + assert (other_id oid o) as Ho.
      { exists v. split; [done|]. intros ->. simpl in E.
        by rewrite String.eqb_refl in E. }
      destruct (find_order rows oid) as [[o'|]|e].
      * destruct IH as (pre & post & -> & Ho' & Hpre).
        exists (o :: pre), post. split; [done|]. split; [done|]. by constructor.
      * by constructor.
      * destruct IH as (-> & pre & o' & post & -> & Ho' & Hpre).
        split; [done|]. exists (o :: pre), o', post.
        split; [done|]. split; [done|]. by constructor.
  - split; [done|]. by exists [], o, rows.
Qed.

Lemma find_order_unique_outcome pre (o : gmap string json) post oid :
  Forall (other_id oid) pre →
  (o !! "order_id" = None → find_order (pre ++ o :: post) oid = Raise (KeyError "order_id")) ∧
  (o !! "order_id" = Some (JStr oid) → find_order (pre ++ o :: post) oid = OK (Some o)).
Proof.
  intros Hpre. induction Hpre as [|o' pre (v & Hv & Hne) _ IH]; simpl.
  - split; intros ->; [done|]. simpl. by rewrite String.eqb_refl.
  - rewrite Hv. destruct (json_eq_str v oid) eqn:E; [|exact IH].
    by apply json_eq_str_true in E.
Qed.

Lemma fetch_order_node_found ORDERS st st' :
  fetch_order_node ORDERS st = OK st' →
  ∃ oid o pre post,
    get (order_id st) = Some oid ∧ oid ≠ "" ∧
    ORDERS = pre ++ o :: post ∧ Forall (other_id oid) pre ∧
    o !! "order_id" = Some (JStr oid) ∧
    st' = set_order (Some o) st.
Proof.
  unfold fetch_order_node.
  destruct (get (order_id st)) as [oid|]; [|discriminate].
  destruct oid as [|c oid]; [discriminate|]. cbn [Text.truthy negb].
  pose proof (find_order_spec ORDERS (String c oid)) as Hspec.
  destruct (find_order ORDERS _) as [[o|]|e]; simpl; try discriminate.
  destruct (dict_truthy o); [|discriminate]. intros [= <-].
  destruct Hspec as (pre & post & -> & Ho & Hpre).
  by exists (String c oid), o, pre, post.
Qed.

(** A successful FetchOrder returns the input state with [order] set to a
    record of the table that carries exactly the state's order id, a
    non-empty string; it is the first such record, and every record before
    it carries some other id. *)
Theorem fetch_order_sound (ORDERS : list (gmap string json)) (st st' : TriageState) :
  fetch_order_node ORDERS st = OK st' →
  ∃ oid o pre post,
    get (order_id st) = Some oid ∧ oid ≠ "" ∧
    ORDERS = pre ++ o :: post ∧ Forall (other_id oid) pre ∧
    o !! "order_id" = Some (JStr oid) ∧
    st' = set_order (Some o) st.
Proof. apply fetch_order_node_found. Qed.


(** FetchOrder raises [KeyError] exactly when the order id is a non-empty
    string and the scan of the table reaches a record without an
    [order_id] key before it reaches a record with that id. *)
Theorem fetch_order_key_error (ORDERS : list (gmap string json)) (st : TriageState) :
  fetch_order_node ORDERS st = Raise (KeyError "order_id") ↔
  ∃ oid pre o post,
    get (order_id st) = Some oid ∧ oid ≠ "" ∧
    ORDERS = pre ++ o :: post ∧ Forall (other_id oid) pre ∧
    o !! "order_id" = None.
Proof.
  split.
  - unfold fetch_order_node.
    destruct (get (order_id st)) as [oid|]; [|discriminate].
    destruct oid as [|c oid]; [discriminate|]. cbn [Text.truthy negb].
    pose proof (find_order_spec ORDERS (String c oid)) as Hspec.
    destruct (find_order ORDERS _) as [[o|]|e]; simpl.
    + by destruct (dict_truthy o).
    + discriminate.
    + intros _. destruct Hspec as (_ & pre & o & post & -> & Ho & Hpre).
      by exists (String c oid), pre, o, post.
  - intros (oid & pre & o & post & Hget & Hne & -> & Hpre & Ho).
    rewrite (fetch_order_node_truthy _ _ _ Hget Hne).
    by rewrite (proj1 (find_order_unique_outcome _ _ _ _ Hpre) Ho).
Qed.

(** The not-found error is raised only for the state's own order id, a
    non-empty string, and only when every record of the table carries an
    [order_id] and none carries that one. *)
Theorem fetch_order_not_found_sound (ORDERS : list (gmap string json))
    (st : TriageState) (oid : string) :
  fetch_order_node ORDERS st = Raise (NotFound oid) →
  get (order_id st) = Some oid ∧ oid ≠ "" ∧ Forall (other_id oid) ORDERS.
Proof.
  unfold fetch_order_node.
  destruct (get (order_id st)) as [oid'|]; [|discriminate].
  destruct oid' as [|c oid']; [discriminate|]. cbn [Text.truthy negb].
  pose proof (find_order_spec ORDERS (String c oid')) as Hspec.
  destruct (find_order ORDERS _) as [[o|]|e]; simpl.
  - destruct Hspec as (pre & post & -> & Ho & Hpre).
    rewrite (dict_truthy_lookup _ _ _ Ho). discriminate.
  - unfold NotFound. intros [= Heq]. apply (inj _) in Heq. by subst.
  - destruct Hspec as [-> _]. discriminate.
Qed.


(** ** DraftReply *)

Lemma str_replace_ok s old v :
  is_str v = true → ∃ n, v = JStr n ∧ str_replace s old v = OK (Text.replace old n s).
Proof. destruct v; try discriminate. intros _. by eexists. Qed.

Lemma str_replace_raise s old v :
  is_str v = false →
  str_replace s old v =
    Raise (TypeError ("replace() argument 2 must be str, not " +:+ type_name v)).
Proof. by destruct v. Qed.

Lemma _draft_reply_eq REPLIES it o :
  _draft_reply REPLIES it o =
  s ← str_replace (default fallback_template (first_template_match REPLIES it))
        "{{customer_name}}" (field_or o "customer_name" "there");
  str_replace s "{{order_id}}" (field_or o "order_id" "").
Proof. reflexivity. Qed.

(** DraftReply succeeds exactly when the order is present and its
    [customer_name] and [order_id], where the record has them, are strings.
    A missing order gives the missing-order error; otherwise the first
    non-string of the two, the customer name before the order id, gives a
    [TypeError] that names its type. *)
Theorem draft_reply_outcomes (REPLIES : list ReplyTemplate) (st : TriageState) :
  (get (order st) = None ↔
     draft_reply_node REPLIES st = Raise MissingField_order) ∧
  (∀ o, get (order st) = Some o →
     ((∃ st', draft_reply_node REPLIES st = OK st') ↔
        is_str (field_or o "customer_name" "there") = true ∧
        is_str (field_or o "order_id" "") = true) ∧
     (is_str (field_or o "customer_name" "there") = false →
        draft_reply_node REPLIES st =
          Raise (TypeError ("replace() argument 2 must be str, not " +:+
                            type_name (field_or o "customer_name" "there")))) ∧
     (is_str (field_or o "customer_name" "there") = true →
      is_str (field_or o "order_id" "") = false →
        draft_reply_node REPLIES st =
          Raise (TypeError ("replace() argument 2 must be str, not " +:+
                            type_name (field_or o "order_id" ""))))).
Proof.
  split.
  - split.
    + intros Hnone. unfold draft_reply_node. by rewrite Hnone.
    + intros Hraise. destruct (get (order st)) as [o|] eqn:Ho; [|done].
      apply draft_reply_node_raise in Hraise as Hshape.
      rewrite (draft_reply_node_eq _ _ _ Ho), _draft_reply_eq in Hraise.
      destruct (field_or o "customer_name" "there");
        destruct (field_or o "order_id" ""); discriminate.
  - intros o Ho. rewrite (draft_reply_node_eq _ _ _ Ho), _draft_reply_eq.
    destruct (is_str (field_or o "customer_name" "there")) eqn:Hn.
    + destruct (str_replace_ok
                  (default fallback_template
                     (first_template_match REPLIES (issue_type_or_other st)))
                  "{{customer_name}}" _ Hn) as (n & _ & ->).
      cbn [mbind result_bind].
      destruct (is_str (field_or o "order_id" "")) eqn:Hi.
      * destruct (str_replace_ok (Text.replace "{{customer_name}}" n
                    (default fallback_template
                       (first_template_match REPLIES (issue_type_or_other st))))
                    "{{order_id}}" _ Hi) as (i & _ & ->).
        cbn [mbind result_bind]. split; [|split; discriminate].
        split; [done|]. intros _. by eexists.
      * rewrite (str_replace_raise _ _ _ Hi). cbn [mbind result_bind].
        split; [|split; [discriminate|done]].
        split; [intros [st' [=]]|intros [_ [=]]].
    + rewrite (str_replace_raise _ _ _ Hn). cbn [mbind result_bind].
      split; [|split; [done|discriminate]].
      split; [intros [st' [=]]|intros [[=] _]].
Qed.

(** A template without placeholders is sent as it is: when the row chosen
    for the issue type contains neither placeholder and the two order fields
    are strings, the reply is the template, whatever the order says. *)
Theorem draft_reply_plain_template (REPLIES : list ReplyTemplate)
    (it template : string) (o : gmap string json) :
  first_template_match REPLIES it = Some template →
  Text.contains "{{customer_name}}" template = false →
  Text.contains "{{order_id}}" template = false →
  is_str (field_or o "customer_name" "there") = true →
  is_str (field_or o "order_id" "") = true →
  _draft_reply REPLIES it o = OK template.
Proof.
  intros Hrow Hc Ho Hn Hi. rewrite _draft_reply_eq, Hrow.
  change (default fallback_template (Some template)) with template.
  destruct (str_replace_ok template "{{customer_name}}" _ Hn) as (n & _ & ->).
  cbn [mbind result_bind]. rewrite replace_absent by done.
  destruct (str_replace_ok template "{{order_id}}" _ Hi) as (i & _ & ->).
  by rewrite replace_absent.
Qed.


Lemma has_char_app c s t :
  Text.has_char c (s +:+ t) = (Text.has_char c s || Text.has_char c t)%bool.
Proof.
  induction s as [|a s IH]; [done|].
  rewrite app_cons. simpl. by rewrite IH, orb_assoc.
Qed.

Lemma startswith_has_char c p s :
  Text.has_char c s = false → Text.startswith (String c p) s = false.
Proof.
  destruct s as [|a s]; [done|]. simpl.
  intros [Hac _]%orb_false_iff.
  rewrite Ascii.eqb_sym, Hac. done.
Qed.

Lemma contains_has_char c p s :
  Text.has_char c s = false → Text.contains (String c p) s = false.
Proof.
  induction s as [|a s IH]; [done|].
  intros Hs. cbn [Text.contains]. rewrite (startswith_has_char _ _ _ Hs).
  simpl in Hs. apply orb_false_iff in Hs as [_ Hs]. by rewrite IH.
Qed.

(** In the fallback case no placeholder is left over when the customer name
    and the order id contain no opening brace: the reply then contains no
    brace at all. *)
Theorem draft_reply_fallback_resolved (REPLIES : list ReplyTemplate)
    (it name oid : string) (o : gmap string json) :
  first_template_match REPLIES it = None →
  field_or o "customer_name" "there" = JStr name →
  field_or o "order_id" "" = JStr oid →
  Text.has_char "{" name = false → Text.has_char "{" oid = false →
  ∃ reply, _draft_reply REPLIES it o = OK reply ∧
    Text.has_char "{" reply = false ∧
    Text.contains "{{customer_name}}" reply = false ∧
    Text.contains "{{order_id}}" reply = false.
Proof.
  intros Hrow Hn Hi Hname Hoid. rewrite _draft_reply_eq, Hrow, Hn, Hi.
  change (default fallback_template None) with fallback_template.
  eexists. split; [reflexivity|]. rewrite render_fallback.
  rewrite (replace_absent "{{order_id}}" oid name)
    by (done || by apply contains_has_char).
  assert (Text.has_char "{"
            ("Hi " +:+ name +:+ ", thanks for reaching out about order " +:+ oid +:+
             ". Our team is reviewing your request and will follow up shortly.")
          = false) as Hreply.
  { rewrite !has_char_app, Hname, Hoid. reflexivity. }
  split; [done|]. split; by apply contains_has_char.
Qed.


(** ** The pipeline as a whole *)

Lemma last_value_idem {A : Type} (x : option A) : last_value x x = x.
Proof. by destruct x. Qed.

(** What the state looks like after each stage's result has been written
    back.  The [messages] key goes through the reducer and is left out. *)
Lemma after_ingest add_messages st w :
  ingest_node st = OK w →
  ticket_text (apply_writes add_messages st w) = ticket_text st ∧
  order_id (apply_writes add_messages st w) = order_id w ∧
  (∃ oid, order_id w = Some oid) ∧
  order (apply_writes add_messages st w) = order st ∧
  reply_text (apply_writes add_messages st w) = reply_text st.
Proof.
  intros (oid & msgs & ->)%ingest_node_ok. simpl.
  rewrite !last_value_idem. repeat split. by exists oid.
Qed.

Lemma after_classify add_messages ISSUES st w :
  classify_issue_node ISSUES st = OK w →
  ticket_text (apply_writes add_messages st w) = ticket_text st ∧
  order_id (apply_writes add_messages st w) = order_id st ∧
  issue_type (apply_writes add_messages st w)
    = Some (Some (cls_issue_type (_classify_issue_text ISSUES (text_of st)))) ∧
  evidence (apply_writes add_messages st w)
    = Some (Some (cls_evidence (_classify_issue_text ISSUES (text_of st)))) ∧
  recommendation (apply_writes add_messages st w)
    = Some (Some (cls_recommendation (_classify_issue_text ISSUES (text_of st)))) ∧
  order (apply_writes add_messages st w) = order st ∧
  reply_text (apply_writes add_messages st w) = reply_text st.
Proof.
  rewrite classify_issue_node_eq. intros [= <-].
  cbn [apply_writes ticket_text order_id issue_type evidence recommendation order
       reply_text set_recommendation set_evidence set_issue_type last_value].
  by rewrite !last_value_idem.
Qed.

Lemma after_set_order add_messages st o :
  ticket_text (apply_writes add_messages st (set_order (Some o) st)) = ticket_text st ∧
  order_id (apply_writes add_messages st (set_order (Some o) st)) = order_id st ∧
  issue_type (apply_writes add_messages st (set_order (Some o) st)) = issue_type st ∧
  evidence (apply_writes add_messages st (set_order (Some o) st)) = evidence st ∧
  recommendation (apply_writes add_messages st (set_order (Some o) st))
    = recommendation st ∧
  order (apply_writes add_messages st (set_order (Some o) st)) = Some (Some o) ∧
  reply_text (apply_writes add_messages st (set_order (Some o) st)) = reply_text st.
Proof. simpl. by rewrite !last_value_idem. Qed.

Lemma after_set_reply_text add_messages st r :
  ticket_text (apply_writes add_messages st (set_reply_text (Some r) st))
    = ticket_text st ∧
  order_id (apply_writes add_messages st (set_reply_text (Some r) st)) = order_id st ∧
  issue_type (apply_writes add_messages st (set_reply_text (Some r) st))
    = issue_type st ∧
  evidence (apply_writes add_messages st (set_reply_text (Some r) st)) = evidence st ∧
  recommendation (apply_writes add_messages st (set_reply_text (Some r) st))
    = recommendation st ∧
  order (apply_writes add_messages st (set_reply_text (Some r) st)) = order st ∧
  reply_text (apply_writes add_messages st (set_reply_text (Some r) st))
    = Some (Some r).
Proof. simpl. by rewrite !last_value_idem. Qed.

(** Everything a successful run guarantees about the final state. *)
Lemma pipeline_success_inv add_messages ISSUES REPLIES ORDERS st fin :
  invoke add_messages (graph ISSUES REPLIES ORDERS) st = OK fin →
  ∃ text oid o reply,
    ticket_text st = Some text ∧ ticket_text fin = Some text ∧
    (∃ w, ingest_node st = OK w ∧ order_id w = Some (Some oid)) ∧
    order_id fin = Some (Some oid) ∧ oid ≠ "" ∧
    order fin = Some (Some o) ∧ o ∈ ORDERS ∧ o !! "order_id" = Some (JStr oid) ∧
    issue_type fin = Some (Some (cls_issue_type (_classify_issue_text ISSUES text))) ∧
    evidence fin = Some (Some (cls_evidence (_classify_issue_text ISSUES text))) ∧
    recommendation fin
      = Some (Some (cls_recommendation (_classify_issue_text ISSUES text))) ∧
    reply_text fin = Some (Some reply) ∧
    _draft_reply REPLIES
      (if Text.truthy (cls_issue_type (_classify_issue_text ISSUES text))
       then cls_issue_type (_classify_issue_text ISSUES text) else "other") o
      = OK reply.
Proof.
  unfold invoke. rewrite run_graph_triage.
  destruct (ingest_node st) as [w1|e1] eqn:H1; [|discriminate]. cbn zeta.
  destruct (after_ingest add_messages _ _ H1) as (Ht1 & Hoid1 & _ & Ho1 & Hr1).
  set (s1 := apply_writes add_messages st w1) in *.
  destruct (classify_issue_node ISSUES s1) as [w2|e2] eqn:H2; [|discriminate].
  destruct (after_classify add_messages _ _ _ H2)
    as (Ht2 & Hoid2 & Hit2 & Hev2 & Hrec2 & Ho2 & Hr2).
  set (s2 := apply_writes add_messages s1 w2) in *.
  destruct (fetch_order_node ORDERS s2) as [w3|e3] eqn:H3; [|discriminate].
  destruct (fetch_order_node_found _ _ _ H3)
    as (oid & o & pre & post & Hget & Hne & -> & Hpre & Hoo & ->).
  destruct (after_set_order add_messages s2 o)
    as (Ht3 & Hoid3 & Hit3 & Hev3 & Hrec3 & Ho3 & Hr3).
  set (s3 := apply_writes add_messages s2 (set_order (Some o) s2)) in *.
  destruct (draft_reply_node REPLIES s3) as [w4|e4] eqn:H4; [|discriminate].
  cbn [snd]. intros [= <-].
  assert (get (order s3) = Some o) as Hgo by (by rewrite Ho3).
  rewrite (draft_reply_node_eq _ _ _ Hgo) in H4.
  destruct (_draft_reply REPLIES (issue_type_or_other s3) o) as [reply|e] eqn:Hd;
    [|discriminate].
  injection H4 as <-.
  destruct (after_set_reply_text add_messages s3 reply)
    as (Ht4 & Hoid4 & Hit4 & Hev4 & Hrec4 & Ho4 & Hr4).
  destruct (ticket_text st) as [text|] eqn:Htext.
  2:{ unfold ingest_node in H1. by rewrite Htext in H1. }
  assert (text_of s1 = text) as Htof by (unfold text_of; by rewrite Ht1).
  rewrite Htof in *.
  assert (order_id s2 = Some (Some oid)) as Hoid.
  { destruct (order_id s2) as [[x|]|]; simpl in Hget; congruence. }
  exists text, oid, o, reply.
  rewrite Ht4, Ht3, Ht2, Ht1, Hoid4, Hoid3, Hoid, Ho4, Ho3, Hit4, Hit3, Hit2,
    Hev4, Hev3, Hev2, Hrec4, Hrec3, Hrec2, Hr4.
  repeat split; try done.
  - exists w1. split; [done|]. by rewrite <- Hoid1, <- Hoid2.
  - apply elem_of_app. right. by left.
  - rewrite <- Hd. unfold issue_type_or_other. by rewrite Hit3, Hit2.
Qed.

(** A run of the compiled graph that succeeds returns a state with every
    response field set: the ticket text of the input, the order id Ingest
    produced (a non-empty string), a record of the orders table carrying
    exactly that id, the classification of the ticket text, and the reply
    rendered for that issue type and that record. *)
Theorem pipeline_success
    (add_messages : list BaseMessage → list BaseMessage → list BaseMessage)
    (ISSUES : list IssueRule) (REPLIES : list ReplyTemplate)
    (ORDERS : list (gmap string json)) (st fin : TriageState) :
  invoke add_messages (graph ISSUES REPLIES ORDERS) st = OK fin →
  ∃ text oid o reply,
    ticket_text st = Some text ∧ ticket_text fin = Some text ∧
    (∃ w, ingest_node st = OK w ∧ order_id w = Some (Some oid)) ∧
    order_id fin = Some (Some oid) ∧ oid ≠ "" ∧
    order fin = Some (Some o) ∧ o ∈ ORDERS ∧ o !! "order_id" = Some (JStr oid) ∧
    issue_type fin = Some (Some (cls_issue_type (_classify_issue_text ISSUES text))) ∧
    evidence fin = Some (Some (cls_evidence (_classify_issue_text ISSUES text))) ∧
    recommendation fin
      = Some (Some (cls_recommendation (_classify_issue_text ISSUES text))) ∧
    reply_text fin = Some (Some reply) ∧
    _draft_reply REPLIES
      (if Text.truthy (cls_issue_type (_classify_issue_text ISSUES text))
       then cls_issue_type (_classify_issue_text ISSUES text) else "other") o
      = OK reply.
Proof. apply pipeline_success_inv. Qed.


Lemma draft_reply_node_raise_with_order REPLIES st o e :
  get (order st) = Some o →
  draft_reply_node REPLIES st = Raise e → ∃ msg, e = TypeError msg.
Proof.
  intros Ho. rewrite (draft_reply_node_eq _ _ _ Ho), _draft_reply_eq.
  unfold str_replace.
  destruct (field_or o "customer_name" "there");
    destruct (field_or o "order_id" ""); simpl; intros [= <-]; eauto.
Qed.

Lemma pipeline_runs_inv
    (add_messages : list BaseMessage → list BaseMessage → list BaseMessage)
    (ISSUES : list IssueRule) (REPLIES : list ReplyTemplate)
    (ORDERS : list (gmap string json)) (st : TriageState) :
  (executed add_messages (graph ISSUES REPLIES ORDERS) st = ["ingest"] ∧
   ticket_text st = None ∧
   invoke add_messages (graph ISSUES REPLIES ORDERS) st
     = Raise MissingField_ticket_text) ∨
  (executed add_messages (graph ISSUES REPLIES ORDERS) st
     = ["ingest"; "classify_issue"; "fetch_order"] ∧
   ticket_text st ≠ None ∧
   ∃ e, invoke add_messages (graph ISSUES REPLIES ORDERS) st = Raise e ∧
     (e = MissingField_order_id ∨ e = KeyError "order_id" ∨ ∃ oid, e = NotFound oid)) ∨
  (executed add_messages (graph ISSUES REPLIES ORDERS) st = stage_names ∧
   ticket_text st ≠ None ∧
   ((∃ fin, invoke add_messages (graph ISSUES REPLIES ORDERS) st = OK fin) ∨
    ∃ msg, invoke add_messages (graph ISSUES REPLIES ORDERS) st = Raise (TypeError msg))).
Proof.
  unfold executed, invoke. rewrite run_graph_triage.
  destruct (ingest_node st) as [w1|e1] eqn:H1.
  2:{ left. apply ingest_node_raise in H1 as [Ht ->]. by repeat split. }
  assert (ticket_text st ≠ None) as Htext.
  { intros Hn. unfold ingest_node in H1. by rewrite Hn in H1. }
  right. cbn zeta. rewrite classify_issue_node_eq. cbn zeta.
  destruct (fetch_order_node ORDERS _) as [w3|e3] eqn:H3.
  2:{ left. split; [done|]. split; [done|]. exists e3. split; [done|].
      by apply fetch_order_node_raise in H3. }
  right. apply fetch_order_node_found in H3
    as (oid & o & pre & post & _ & _ & _ & _ & _ & ->).
  match goal with
  | |- context [draft_reply_node REPLIES ?s] =>
      destruct (draft_reply_node REPLIES s) as [w4|e4] eqn:H4
  end.
  - split; [done|]. split; [done|]. left. by eexists.
  - split; [done|]. split; [done|]. right.
    match type of H4 with
    | draft_reply_node _ ?s = _ =>
        assert (get (order s) = Some o) as Hgo
          by (by rewrite (proj1 (proj2 (proj2 (proj2 (proj2 (proj2
                   (after_set_order add_messages _ o))))))))
    end.
    destruct (draft_reply_node_raise_with_order _ _ _ _ Hgo H4) as [msg ->].
    by exists msg.
Qed.

(** Every run of the compiled graph is one of three kinds.  Only Ingest
    ran: [ticket_text] was missing and the run raises the
    missing-ticket-text error.  Ingest, Classify and FetchOrder ran: the run
    raises FetchOrder's exception.  All four stages ran, in the order of the
    edges: the run succeeds, or raises DraftReply's [TypeError].  A run
    never stops after Classify, never reaches DraftReply without an order,
    and never hits the recursion limit. *)
Theorem pipeline_runs
    (add_messages : list BaseMessage → list BaseMessage → list BaseMessage)
    (ISSUES : list IssueRule) (REPLIES : list ReplyTemplate)
    (ORDERS : list (gmap string json)) (st : TriageState) :
  (executed add_messages (graph ISSUES REPLIES ORDERS) st = ["ingest"] ∧
   ticket_text st = None ∧
   invoke add_messages (graph ISSUES REPLIES ORDERS) st
     = Raise MissingField_ticket_text) ∨
  (executed add_messages (graph ISSUES REPLIES ORDERS) st
     = ["ingest"; "classify_issue"; "fetch_order"] ∧
   ticket_text st ≠ None ∧
   ∃ e, invoke add_messages (graph ISSUES REPLIES ORDERS) st = Raise e ∧
     (e = MissingField_order_id ∨ e = KeyError "order_id" ∨ ∃ oid, e = NotFound oid)) ∨
  (executed add_messages (graph ISSUES REPLIES ORDERS) st = stage_names ∧
   ticket_text st ≠ None ∧
   ((∃ fin, invoke add_messages (graph ISSUES REPLIES ORDERS) st = OK fin) ∨
    ∃ msg, invoke add_messages (graph ISSUES REPLIES ORDERS) st = Raise (TypeError msg))).
Proof. apply pipeline_runs_inv. Qed.

(** ** The endpoint *)

Lemma on_value_error_missing_order_id :
  on_value_error "order_id is required before fetch_order_node"
  = HTTPException 400 "order_id is required before fetch_order_node".
Proof. reflexivity. Qed.

(** The handler tests for "order_id is required" first, also inside the
    order id that the not-found message quotes. *)
Lemma on_value_error_not_found oid :
  on_value_error ("order not found for id=" +:+ oid)
  = HTTPException
      (if Text.contains "order_id is required" oid then 400 else 404)
      ("order not found for id=" +:+ oid).
Proof.
  unfold on_value_error.
  assert (Text.contains "order_id is required" ("order not found for id=" +:+ oid)
          = Text.contains "order_id is required" oid) as -> by reflexivity.
  destruct (Text.contains "order_id is required" oid); reflexivity.
Qed.

Lemma find_order_all_other rows oid :
  Forall (other_id oid) rows → find_order rows oid = OK None.
Proof.
  induction 1 as [|o rows (v & Hv & Hne) _ IH]; simpl; [done|].
  rewrite Hv. destruct (json_eq_str v oid) eqn:E; [|done].
  by apply json_eq_str_true in E.
Qed.

Lemma request_order_id_ingest body oid :
  request_order_id body oid →
  oid ≠ "" ∧
  (if falsy (get (order_id (initial_state body)))
   then match Text.search_order_token U (body_ticket_text body) with
        | Some m => Some (Text.upper U m)
        | None => get (order_id (initial_state body))
        end
   else get (order_id (initial_state body))) = Some oid.
Proof.
  cbn [initial_state order_id]. rewrite get_Some.
  intros [[Hb Hne]|(Hf & m & Hs & ->)].
  - split; [done|]. rewrite Hb. by destruct oid.
  - rewrite Hf, Hs. split; [|done].
    pose proof (upper_token_truthy _ _ Hs) as Ht. by destruct (Text.upper U m).
Qed.

(** A run from a state with a ticket text, up to the FetchOrder stage. *)
Lemma invoke_via_fetch add_messages ISSUES REPLIES ORDERS st text :
  ticket_text st = Some text →
  ∃ s2,
    ticket_text s2 = Some text ∧
    order_id s2 =
      Some (if falsy (get (order_id st))
            then match Text.search_order_token U text with
                 | Some m => Some (Text.upper U m)
                 | None => get (order_id st)
                 end
            else get (order_id st)) ∧
    issue_type s2 = Some (Some (cls_issue_type (_classify_issue_text ISSUES text))) ∧
    evidence s2 = Some (Some (cls_evidence (_classify_issue_text ISSUES text))) ∧
    recommendation s2
      = Some (Some (cls_recommendation (_classify_issue_text ISSUES text))) ∧
    invoke add_messages (graph ISSUES REPLIES ORDERS) st =
      match fetch_order_node ORDERS s2 with
      | Raise e => Raise e
      | OK w3 =>
          match draft_reply_node REPLIES (apply_writes add_messages s2 w3) with
          | Raise e => Raise e
          | OK w4 =>
              OK (apply_writes add_messages (apply_writes add_messages s2 w3) w4)
          end
      end.
Proof.
  intros Htext. unfold invoke. rewrite run_graph_triage.
  pose proof (ingest_node_eq _ _ Htext) as H1. rewrite H1. cbn zeta.
  destruct (after_ingest add_messages _ _ H1) as (Ht1 & Hoid1 & _ & _ & _).
  match goal with
  | |- context [classify_issue_node ISSUES ?s] => set (s1 := s) in *
  end.
  destruct (classify_issue_node ISSUES s1) as [w2|e2] eqn:H2.
  2:{ by rewrite classify_issue_node_eq in H2. }
  destruct (after_classify add_messages _ _ _ H2)
    as (Ht2 & Hoid2 & Hit2 & Hev2 & Hrec2 & _ & _).
  assert (text_of s1 = text) as Htof by (unfold text_of; by rewrite Ht1, Htext).
  rewrite Htof in *.
  exists (apply_writes add_messages s1 w2).
  split; [by rewrite Ht2, Ht1|]. split; [by rewrite Hoid2, Hoid1|].
  split; [done|]. split; [done|]. split; [done|].
  destruct (fetch_order_node ORDERS _) as [w3|e3]; [|done].
  by destruct (draft_reply_node REPLIES _).
Qed.

(** A request without usable order id is answered with status 400: when
    the supplied [order_id] is missing or empty and the ticket text contains
    no "ORD" (in any letter case) followed by four decimal digits, ASCII or
    not, the endpoint raises the HTTP error 400 with FetchOrder's message. *)
Theorem endpoint_missing_order_id
    (add_messages : list BaseMessage → list BaseMessage → list BaseMessage)
    (ISSUES : list IssueRule) (REPLIES : list ReplyTemplate)
    (ORDERS : list (gmap string json)) (body : TriageInput) :
  falsy (body_order_id body) = true →
  (∀ pre m, order_token m → ¬ occurs_after pre m (body_ticket_text body)) →
  triage_invoke add_messages ISSUES REPLIES ORDERS body
  = HTTPException 400 "order_id is required before fetch_order_node".
Proof.
  intros Hf Hnone.
  assert (Text.search_order_token U (body_ticket_text body) = None) as Hs.
  { destruct (Text.search_order_token U _) as [m|] eqn:Hs; [|done].
    destruct (search_order_token_Some _ _ Hs) as (pre & Hm & Hocc & _).
    by destruct (Hnone pre m). }
  unfold triage_invoke.
  destruct (invoke_via_fetch add_messages ISSUES REPLIES ORDERS
              (initial_state body) (body_ticket_text body) eq_refl)
    as (s2 & _ & Hoid & _ & _ & _ & ->).
  cbn [initial_state order_id] in Hoid. rewrite get_Some, Hf, Hs in Hoid.
  rewrite fetch_order_node_falsy by (by rewrite Hoid, get_Some).
  reflexivity.
Qed.


(** A request whose order id is not in the table is answered with the
    not-found message, with status 404; the status is 400 instead when
    the order id itself contains the words "order_id is required", which
    the handler looks for first.  This needs every record of the table to
    carry an [order_id]. *)
Theorem endpoint_not_found
    (add_messages : list BaseMessage → list BaseMessage → list BaseMessage)
    (ISSUES : list IssueRule) (REPLIES : list ReplyTemplate)
    (ORDERS : list (gmap string json)) (body : TriageInput) (oid : string) :
  request_order_id body oid →
  Forall (other_id oid) ORDERS →
  triage_invoke add_messages ISSUES REPLIES ORDERS body
  = HTTPException
      (if Text.contains "order_id is required" oid then 400 else 404)
      ("order not found for id=" +:+ oid).
Proof.
  intros [Hne Hreq]%request_order_id_ingest Hother.
  unfold triage_invoke.
  destruct (invoke_via_fetch add_messages ISSUES REPLIES ORDERS
              (initial_state body) (body_ticket_text body) eq_refl)
    as (s2 & _ & Hoid & _ & _ & _ & ->).
  rewrite Hreq in Hoid.
  rewrite (fetch_order_node_truthy _ _ oid) by (by rewrite ?Hoid).
  rewrite find_order_all_other by done.
  cbn [mbind result_bind]. apply on_value_error_not_found.
Qed.


Lemma request_order_id_of_ingest body w oid :
  ingest_node (initial_state body) = OK w →
  order_id w = Some (Some oid) → oid ≠ "" →
  request_order_id body oid.
Proof.
  rewrite (ingest_node_eq _ (body_ticket_text body)) by reflexivity.
  intros [= <-]. cbn [order_id set_order_id initial_state].
  unfold request_order_id.
  destruct (body_order_id body) as [b|]; cbn [get].
  - destruct (falsy (Some b)) eqn:Hf.
    + destruct (Text.search_order_token U _) as [m|] eqn:Hs.
      * intros [= <-] _. right. split; [done|]. by exists m.
      * intros [= ->] Hne. by destruct oid.
    + intros [= ->] Hne. by left.
  - cbn [falsy]. destruct (Text.search_order_token U _) as [m|] eqn:Hs; [|done].
    intros [= <-] _. right. split; [done|]. by exists m.
Qed.

Lemma fetch_order_node_raise_inv ORDERS st e :
  fetch_order_node ORDERS st = Raise e →
  e = MissingField_order_id ∨ e = KeyError "order_id" ∨
  ∃ oid, get (order_id st) = Some oid ∧ oid ≠ "" ∧ e = NotFound oid.
Proof.
  unfold fetch_order_node.
  destruct (get (order_id st)) as [oid|]; [|intros [= <-]; by left].
  destruct oid as [|c oid]; [intros [= <-]; by left|]. cbn [Text.truthy negb].
  destruct (find_order ORDERS _) as [[o|]|e'] eqn:Hfind; simpl.
  - destruct (dict_truthy o); [discriminate|]. intros [= <-].
    right; right. by eexists.
  - intros [= <-]. right; right. by eexists.
  - intros [= <-]. right; left. by apply find_order_raise in Hfind.
Qed.

(** The endpoint raises an HTTP error only with status 400 or 404, never
    500: either status 400 with the missing-order-id message, or the
    not-found message for the order id of the request, with status 404 (400
    when that id contains "order_id is required").  The only exceptions it
    lets through uncaught are the [KeyError] of an order record without
    [order_id] and the [TypeError] of a non-string order field. *)
Theorem endpoint_errors
    (add_messages : list BaseMessage → list BaseMessage → list BaseMessage)
    (ISSUES : list IssueRule) (REPLIES : list ReplyTemplate)
    (ORDERS : list (gmap string json)) (body : TriageInput) :
  (∀ code detail,
     triage_invoke add_messages ISSUES REPLIES ORDERS body = HTTPException code detail →
     (code = 400 ∧ detail = "order_id is required before fetch_order_node") ∨
     (∃ oid, request_order_id body oid ∧
        detail = "order not found for id=" +:+ oid ∧
        code = if Text.contains "order_id is required" oid then 400 else 404)) ∧
  (∀ e, triage_invoke add_messages ISSUES REPLIES ORDERS body = Uncaught e →
     e = KeyError "order_id" ∨ ∃ msg, e = TypeError msg).
Proof.
  unfold triage_invoke.
  destruct (invoke add_messages (graph ISSUES REPLIES ORDERS) (initial_state body))
    as [fin|e] eqn:Hrun.
  - destruct (pipeline_success_inv _ _ _ _ _ _ Hrun)
      as (text & oid & o & reply & _ & _ & _ & _ & _ & Ho & _ & Hoo & _).
    rewrite Ho. cbn [get]. rewrite (dict_truthy_lookup _ _ _ Hoo).
    split; intros; discriminate.
  - destruct (invoke_via_fetch add_messages ISSUES REPLIES ORDERS
                (initial_state body) (body_ticket_text body) eq_refl)
      as (s2 & _ & Hoid & _ & _ & _ & Hinv).
    rewrite Hrun in Hinv.
    destruct (fetch_order_node ORDERS s2) as [w3|e3] eqn:H3.
    + apply fetch_order_node_found in H3
        as (oid & o & pre & post & _ & _ & _ & _ & _ & ->).
      destruct (draft_reply_node REPLIES _) as [w4|e4] eqn:H4; [discriminate|].
      injection Hinv as ->.
      assert (∃ msg, e4 = TypeError msg) as [msg ->].
      { eapply draft_reply_node_raise_with_order; [|exact H4].
        by rewrite (proj1 (proj2 (proj2 (proj2 (proj2 (proj2
                     (after_set_order add_messages _ o))))))). }
      split; [intros; discriminate|]. intros e [= <-]. right. by exists msg.
    + injection Hinv as ->.
      apply fetch_order_node_raise_inv in H3
        as [->|[->|(oid & Hget & Hne & ->)]].
      * unfold MissingField_order_id. cbv beta iota.
        rewrite on_value_error_missing_order_id.
        split; [|intros; discriminate]. intros code detail.
        intros [= <- <-]. by left.
      * split; [intros; discriminate|]. intros e [= <-]. by left.
      * unfold NotFound. cbv beta iota. rewrite on_value_error_not_found.
        split; [|intros; discriminate]. intros code detail.
        intros [= <- <-]. right. exists oid. split; [|done].
        apply (request_order_id_of_ingest body
                 (set_order_id (Some oid)
                    (set_messages [HumanMessage (body_ticket_text body)]
                       (initial_state body)))); [|done|done].
        rewrite (ingest_node_eq _ (body_ticket_text body)) by reflexivity.
        do 2 f_equal. rewrite Hoid in Hget. by rewrite get_Some in Hget.
Qed.

(** A response of the endpoint is complete and consistent: it carries the
    order id of the request, a record of the orders table with exactly that
    id, the classification of the ticket text, and the reply rendered for
    that issue type and record; no field is null. *)
Theorem endpoint_response
    (add_messages : list BaseMessage → list BaseMessage → list BaseMessage)
    (ISSUES : list IssueRule) (REPLIES : list ReplyTemplate)
    (ORDERS : list (gmap string json)) (body : TriageInput) (r : TriageResponse) :
  triage_invoke add_messages ISSUES REPLIES ORDERS body = Response r →
  ∃ oid o reply,
    request_order_id body oid ∧
    resp_order_id r = Some oid ∧
    resp_order r = Some o ∧ o ∈ ORDERS ∧ o !! "order_id" = Some (JStr oid) ∧
    resp_issue_type r
      = Some (cls_issue_type (_classify_issue_text ISSUES (body_ticket_text body))) ∧
    resp_evidence r
      = Some (cls_evidence (_classify_issue_text ISSUES (body_ticket_text body))) ∧
    resp_recommendation r
      = Some (cls_recommendation (_classify_issue_text ISSUES (body_ticket_text body))) ∧
    resp_reply_text r = Some reply ∧
    _draft_reply REPLIES
      (if Text.truthy (cls_issue_type (_classify_issue_text ISSUES (body_ticket_text body)))
       then cls_issue_type (_classify_issue_text ISSUES (body_ticket_text body))
       else "other") o = OK reply.
Proof.
  unfold triage_invoke.
  destruct (invoke add_messages (graph ISSUES REPLIES ORDERS) (initial_state body))
    as [fin|e] eqn:Hrun.
  2:{ destruct e; [unfold on_value_error; repeat case_match|..]; discriminate. }
  destruct (pipeline_success_inv _ _ _ _ _ _ Hrun)
    as (text & oid & o & reply & Ht & _ & (w & Hw & Hwoid) & Hoid & Hne & Ho & Hin
        & Hoo & Hit & Hev & Hrec & Hr & Hd).
  injection Ht as <-.
  rewrite Ho, Hoid, Hit, Hev, Hrec, Hr. cbn [get].
  rewrite (dict_truthy_lookup _ _ _ Hoo). intros [= <-].
  exists oid, o, reply. cbn.
  split; [by eapply request_order_id_of_ingest|]. by repeat split.
Qed.


(** The happy path: when the first record of the table that carries the
    order id of the request has a string (or no) customer name, and every
    record before it carries another id, the endpoint answers with that id
    and record, the classification of the ticket text, and the template for
    the issue type with the customer name and then the order id
    substituted. *)
Theorem endpoint_success
    (add_messages : list BaseMessage → list BaseMessage → list BaseMessage)
    (ISSUES : list IssueRule) (REPLIES : list ReplyTemplate)
    (ORDERS pre post : list (gmap string json)) (body : TriageInput)
    (oid name : string) (o : gmap string json) :
  request_order_id body oid →
  ORDERS = pre ++ o :: post → Forall (other_id oid) pre →
  o !! "order_id" = Some (JStr oid) →
  field_or o "customer_name" "there" = JStr name →
  triage_invoke add_messages ISSUES REPLIES ORDERS body =
  Response
    (mkResponse (Some oid)
       (Some (cls_issue_type (_classify_issue_text ISSUES (body_ticket_text body))))
       (Some o)
       (Some (Text.replace "{{order_id}}" oid
                (Text.replace "{{customer_name}}" name
                   (default fallback_template
                      (first_template_match REPLIES
                         (if Text.truthy
                               (cls_issue_type
                                  (_classify_issue_text ISSUES (body_ticket_text body)))
                          then cls_issue_type
                                 (_classify_issue_text ISSUES (body_ticket_text body))
                          else "other"))))))
       (Some (cls_evidence (_classify_issue_text ISSUES (body_ticket_text body))))
       (Some (cls_recommendation
                (_classify_issue_text ISSUES (body_ticket_text body))))).
Proof.
  intros [Hne Hreq]%request_order_id_ingest -> Hpre Ho Hname.
  unfold triage_invoke.
  destruct (invoke_via_fetch add_messages ISSUES REPLIES (pre ++ o :: post)
              (initial_state body) (body_ticket_text body) eq_refl)
    as (s2 & _ & Hoid & Hit & Hev & Hrec & ->).
  rewrite Hreq in Hoid.
  rewrite (fetch_order_node_truthy _ _ oid) by (by rewrite ?Hoid).
  rewrite (proj2 (find_order_unique_outcome _ _ _ _ Hpre) Ho).
  cbn [mbind result_bind]. rewrite (dict_truthy_lookup _ _ _ Ho).
  destruct (after_set_order add_messages s2 o)
    as (_ & Hoid3 & Hit3 & Hev3 & Hrec3 & Ho3 & _).
  set (s3 := apply_writes add_messages s2 (set_order (Some o) s2)) in *.
  rewrite (draft_reply_node_eq _ _ o) by (by rewrite Ho3).
  rewrite _draft_reply_eq, Hname. unfold field_or. rewrite Ho.
  cbn [mbind result_bind str_replace default from_option id].
  destruct (after_set_reply_text add_messages s3
              (Text.replace "{{order_id}}" oid
                 (Text.replace "{{customer_name}}" name
                    (default fallback_template
                       (first_template_match REPLIES (issue_type_or_other s3))))))
    as (_ & Hoid4 & Hit4 & Hev4 & Hrec4 & Ho4 & Hr4).
  rewrite Ho4, Ho3, Hoid4, Hoid3, Hoid, Hit4, Hit3, Hit, Hev4, Hev3, Hev,
    Hrec4, Hrec3, Hrec, Hr4.
  cbn [get]. rewrite (dict_truthy_lookup _ _ _ Ho).
  unfold issue_type_or_other. rewrite Hit3, Hit. reflexivity.
Qed.


(** Ingest looks for the token without regard to what surrounds it: a text
    that starts with "ORD" plus four digits yields that token in upper
    case, whatever follows, further digits included. *)
Theorem ingest_token_prefix (st : TriageState) (m post : string) :
  ticket_text st = Some (m +:+ post) →
  falsy (get (order_id st)) = true →
  order_token m →
  ∃ st', ingest_node st = OK st' ∧ order_id st' = Some (Some (Text.upper U m)).
Proof.
  intros Htext Hf Hm. rewrite (ingest_node_eq _ _ Htext), Hf.
  rewrite (search_order_token_here _ m) by (by apply match_order_token_hit).
  by eexists.
Qed.


End Model.

(** * Instances on the sample tables *)

(** C8, as stated, fails: on a ticket that matches no rule the issue type is
    ["other"] and the recommendation is ["Review ticket manually."], which is
    not the string ["review manually"]. *)
Lemma classify_recommendation_not_review_manually :
  ∃ st', classify_issue_node Sample.unicode Sample.ISSUES
           (mkState None (Some "hello") None None None None None None) = OK st' ∧
    issue_type st' = Some (Some "other") ∧
    recommendation st' = Some (Some "Review ticket manually.") ∧
    recommendation st' ≠ Some (Some "review manually").
Proof. eexists. split; [reflexivity|]. repeat split. discriminate. Qed.

Lemma stage_frame_witness :
  ∃ st',
    node_of Sample.unicode Sample.ISSUES Sample.REPLIES Sample.ORDERS Ingest
      (mkState None (Some Sample.ticket) None None None None None (Some (Some "draft")))
      = OK st' ∧
    ((∀ f, f ∉ owns Ingest →
        same_field f st'
          (mkState None (Some Sample.ticket) None None None None None (Some (Some "draft")))) ∧
     ticket_text st' = Some Sample.ticket).
Proof.
  eexists. split; [reflexivity|].
  apply (stage_frame Sample.unicode Sample.ISSUES Sample.REPLIES Sample.ORDERS Ingest).
  reflexivity.
Defined.

Lemma ingest_order_id_witness :
  ∃ st', ingest_node Sample.unicode
           (mkState (Some []) (Some "where is ord1005?") None
              None None None None None) = OK st' ∧
    order_id st' = Some (Some "ORD1005").
Proof.
  destruct (ingest_order_id Sample.unicode
              (mkState (Some []) (Some "where is ord1005?") None
                 None None None None None)
              "where is ord1005?" eq_refl) as (st' & Hrun & Hfalsy & _).
  exists st'. split; [exact Hrun|].
  destruct (Hfalsy eq_refl) as (_ & Hfirst & _).
  apply (Hfirst "where is " "ord1005").
  - apply (order_token_ascii Sample.unicode "ord1005" eq_refl).
    exists "o"%char, "r"%char, "d"%char, "1"%char, "0"%char, "0"%char, "5"%char.
    repeat split.
  - by exists "?".
  - intros pre' m' Hm' [post' E].
    destruct Hm' as (c1 & c2 & c3 & ds & -> & H1 & H2 & H3 & _).
    destruct pre' as [|? [|? [|? [|? [|? [|? [|? [|? [|? pre']]]]]]]]];
      simpl; try lia; exfalso;
      rewrite ?app_cons, ?app_empty_l in E; simplify_eq; vm_compute in *; congruence.
Defined.

(** C4, as stated, fails in its last sentence: a caller who supplies the
    empty string as [order_id] gets an order id extracted from the text. *)
Lemma ingest_extracts_over_empty_order_id :
  ∃ st', ingest_node Sample.unicode
           (mkState (Some []) (Some "ORD1234 arrived late")
              (Some (Some "")) None None None None None) = OK st' ∧
    order_id st' = Some (Some "ORD1234") ∧
    order_id st' ≠ Some (Some "").
Proof. eexists. split; [reflexivity|]. split; [reflexivity|discriminate]. Qed.

(** C5, as stated, fails: the missing-order-id error is also raised for a
    state in which [order_id] is present, with the empty string as value. *)
Lemma fetch_order_missing_field_with_order_id_present :
  ∃ st, order_id st = Some (Some "") ∧ get (order_id st) ≠ None ∧
    fetch_order_node Sample.ORDERS st = Raise MissingField_order_id.
Proof.
  exists (mkState (Some []) (Some "hello") (Some (Some "")) None None None None None).
  split; [reflexivity|]. split; [discriminate|reflexivity].
Qed.

Lemma fetch_order_empty_order_id_witness :
  fetch_order_node Sample.ORDERS
    (mkState (Some []) (Some "where is my parcel") (Some (Some ""))
       None None None None None) = Raise MissingField_order_id ∧
  ∀ oid, fetch_order_node Sample.ORDERS
    (mkState (Some []) (Some "where is my parcel") (Some (Some ""))
       None None None None None) ≠ Raise (NotFound oid).
Proof. apply fetch_order_empty_order_id. reflexivity. Defined.

Lemma draft_reply_renders_witness :
  ∃ reply,
    draft_reply_node Sample.REPLIES
      (mkState (Some []) (Some Sample.ticket) (Some (Some "ORD1001"))
         (Some (Some "damaged_item")) None None (Some (Some Sample.ava)) None)
    = OK (set_reply_text (Some reply)
           (mkState (Some []) (Some Sample.ticket) (Some (Some "ORD1001"))
              (Some (Some "damaged_item")) None None (Some (Some Sample.ava)) None)) ∧
    reply = "Hi Ava Chen, sorry that order ORD1001 arrived damaged.".
Proof.
  destruct (draft_reply_renders Sample.REPLIES
              (mkState (Some []) (Some Sample.ticket) (Some (Some "ORD1001"))
                 (Some (Some "damaged_item")) None None (Some (Some Sample.ava)) None)
              Sample.ava "Ava Chen" "ORD1001" eq_refl eq_refl eq_refl)
    as (template & reply & Hrun & Hreply & Hrow & _).
  exists reply. split; [exact Hrun|].
  rewrite Hreply.
  rewrite (Hrow [mkTemplate "refund_request"
                   "Hi {{customer_name}}, your refund for order {{order_id}} is on its way."]
             (mkTemplate "damaged_item"
                "Hi {{customer_name}}, sorry that order {{order_id}} arrived damaged.")
             [] eq_refl).
  - reflexivity.
  - repeat constructor. discriminate.
  - reflexivity.
Defined.

(** C6, as stated, fails: an order record whose [customer_name] is not a
    string (here JSON [null]) makes DraftReply raise a [TypeError]. *)
Lemma draft_reply_fails_on_null_customer_name :
  get (order (mkState (Some []) (Some "hello") (Some (Some "ORD1"))
                (Some (Some "other")) None None
                (Some (Some (<["customer_name" := JNull]> ∅))) None)) ≠ None ∧
  draft_reply_node Sample.REPLIES
    (mkState (Some []) (Some "hello") (Some (Some "ORD1"))
       (Some (Some "other")) None None
       (Some (Some (<["customer_name" := JNull]> ∅))) None)
  = Raise (TypeError "replace() argument 2 must be str, not None").
Proof. split; [discriminate|reflexivity]. Qed.

Lemma pipeline_halts_at_fetch_order_witness :
  (executed Sample.add_messages (graph Sample.unicode Sample.ISSUES Sample.REPLIES Sample.ORDERS)
     (initial_state (mkInput "my parcel is late" None))
     = ["ingest"; "classify_issue"; "fetch_order"] ∧
   ¬ "draft_reply" ∈
     executed Sample.add_messages (graph Sample.unicode Sample.ISSUES Sample.REPLIES Sample.ORDERS)
       (initial_state (mkInput "my parcel is late" None)) ∧
   invoke Sample.add_messages (graph Sample.unicode Sample.ISSUES Sample.REPLIES Sample.ORDERS)
     (initial_state (mkInput "my parcel is late" None))
     = Raise MissingField_order_id) ∧
  (executed Sample.add_messages (graph Sample.unicode Sample.ISSUES Sample.REPLIES Sample.ORDERS)
     (initial_state (mkInput "ORD9999 is late" None))
     = ["ingest"; "classify_issue"; "fetch_order"] ∧
   ¬ "draft_reply" ∈
     executed Sample.add_messages (graph Sample.unicode Sample.ISSUES Sample.REPLIES Sample.ORDERS)
       (initial_state (mkInput "ORD9999 is late" None)) ∧
   invoke Sample.add_messages (graph Sample.unicode Sample.ISSUES Sample.REPLIES Sample.ORDERS)
     (initial_state (mkInput "ORD9999 is late" None))
     = Raise (NotFound "ORD9999")).
Proof.
  split.
  - eapply pipeline_halts_at_fetch_order; reflexivity.
  - eapply pipeline_halts_at_fetch_order; reflexivity.
Defined.

(** Of two rules that both match, the earlier one decides the issue type. *)
Example classify_earlier_rule_wins :
  ∃ st',
    classify_issue_node Sample.unicode
      [mkRule "Refund" "refund_request"; mkRule "damaged" "damaged_item"]
      (mkState None (Some "The item is DAMAGED, I want a refund")
         None None None None None None) = OK st' ∧
    issue_type st' = Some (Some "refund_request") ∧
    evidence st' = Some (Some "Matched keyword for issue_type=refund_request") ∧
    recommendation st' = Some (Some "Issue a refund after verification.").
Proof. eexists. repeat split. Qed.

(** The order lookup takes the first record with the requested id. *)
Example fetch_order_second_record :
  fetch_order_node Sample.ORDERS
    (mkState (Some []) (Some "hello") (Some (Some "ORD1002")) None None None None None)
  = OK (set_order (Some Sample.ben)
         (mkState (Some []) (Some "hello") (Some (Some "ORD1002"))
            None None None None None)).
Proof. reflexivity. Qed.

(** A record without the key makes the lookup raise [KeyError]. *)
Example fetch_order_unkeyed_table :
  fetch_order_node [∅; Sample.ava]
    (mkState (Some []) (Some "hello") (Some (Some "ORD1001")) None None None None None)
  = Raise (KeyError "order_id").
Proof. reflexivity. Qed.

(** The two substitutions are done one after the other: a customer name
    that contains the order-id placeholder is itself rewritten. *)
Example draft_reply_sequential_substitution :
  _draft_reply [] "other"
    (<["order_id" := JStr "ORD1"]> (<["customer_name" := JStr "{{order_id}}"]> ∅))
  = OK ("Hi ORD1, thanks for reaching out about order ORD1. " +:+
        "Our team is reviewing your request and will follow up shortly.").
Proof. reflexivity. Qed.

(** The scenarios of tests/test_triage.py. *)
Example test_ingest_node_extracts_order_id_and_appends_message :
  ingest_node Sample.unicode
    (mkState (Some []) (Some "Hello, I'm checking on order ord1005 which arrived late.")
       None None None None None None)
  = OK (mkState
          (Some [HumanMessage "Hello, I'm checking on order ord1005 which arrived late."])
          (Some "Hello, I'm checking on order ord1005 which arrived late.")
          (Some (Some "ORD1005")) None None None None None).
Proof. vm_compute. reflexivity. Qed.

Example test_fetch_order_node_requires_order_id :
  ∃ message,
    fetch_order_node Sample.ORDERS (mkState None None None None None None None None)
      = Raise (ValueError message) ∧
    Text.contains "order_id is required" message = true.
Proof. eexists. split; vm_compute; reflexivity. Qed.

Example test_triage_invoke_runs_full_workflow :
  ∃ body,
    triage_invoke Sample.unicode Sample.add_messages Sample.ISSUES Sample.REPLIES Sample.ORDERS
      (mkInput Sample.ticket None) = Response body ∧
    resp_order_id body = Some "ORD1001" ∧
    resp_issue_type body = Some "damaged_item" ∧
    resp_reply_text body = Some "Hi Ava Chen, sorry that order ORD1001 arrived damaged." ∧
    resp_evidence body = Some "Matched keyword for issue_type=damaged_item".
Proof. eexists. split; [vm_compute; reflexivity|]. repeat split. Qed.

(** Beyond ASCII.  [\d] also matches the decimal digits of other scripts,
    so an order id written with Arabic-Indic digits is extracted, and it is
    the leftmost token that counts; [lower] maps the capital letters of
    other scripts too, so a keyword with an accented letter is found in a
    text written in capitals. *)
Example ingest_extracts_arabic_indic_digits :
  ingest_node Sample.unicode
    (mkState (Some []) (Some "ORD١٢٣٤") None None None None None None)
  = OK (mkState (Some [HumanMessage "ORD١٢٣٤"]) (Some "ORD١٢٣٤")
          (Some (Some "ORD١٢٣٤")) None None None None None).
Proof. vm_compute. reflexivity. Qed.

Example endpoint_looks_up_leftmost_token :
  triage_invoke Sample.unicode Sample.add_messages Sample.ISSUES Sample.REPLIES
    Sample.ORDERS (mkInput "ORD١٢٣٤ ORD1001" None)
  = HTTPException 404 "order not found for id=ORD١٢٣٤".
Proof. vm_compute. reflexivity. Qed.

Example classify_accented_keyword :
  _classify_issue_text Sample.unicode [mkRule "café" "venue"] "CAFÉ closed"
  = mkClassification "venue" "Matched keyword for issue_type=venue"
      "Review ticket manually.".
Proof. vm_compute. reflexivity. Qed.

Lemma ingest_twice_witness :
  ∃ st2,
    ingest_node Sample.unicode
      (mkState (Some [HumanMessage "ord1005?"]) (Some "ord1005?")
         (Some (Some "ORD1005")) None None None None None) = OK st2 ∧
    order_id st2 = Some (Some "ORD1005") ∧
    ticket_text st2 = Some "ord1005?" ∧
    Some [HumanMessage "ord1005?"] = Some ([] ++ [HumanMessage "ord1005?"]) ∧
    messages st2 = Some ([] ++ [HumanMessage "ord1005?"; HumanMessage "ord1005?"]).
Proof.
  exact (ingest_twice Sample.unicode
           (mkState None (Some "ord1005?") None None None None None None)
           (mkState (Some [HumanMessage "ord1005?"]) (Some "ord1005?")
              (Some (Some "ORD1005")) None None None None None)
           "ord1005?" eq_refl eq_refl).
Defined.

Lemma ingest_extracted_shape_witness :
  normalized_order_id "ORD1005" ∧
  ∃ pre m, ascii_order_token m ∧ occurs_after pre m "ord1005?" ∧
           "ORD1005" = Text.upper Sample.unicode m.
Proof.
  apply (ingest_extracted_shape Sample.unicode
           (mkState None (Some "ord1005?") None None None None None None)
           (mkState (Some [HumanMessage "ord1005?"]) (Some "ord1005?")
              (Some (Some "ORD1005")) None None None None None)
           "ord1005?" "ORD1005"); [reflexivity..|discriminate].
Defined.

Lemma classify_ignores_case_witness :
  _classify_issue_text Sample.unicode Sample.ISSUES
    (Text.upper Sample.unicode "My parcel is Late")
  = _classify_issue_text Sample.unicode Sample.ISSUES "My parcel is Late" ∧
  _classify_issue_text Sample.unicode Sample.ISSUES
    (Text.lower Sample.unicode "My parcel is Late")
  = _classify_issue_text Sample.unicode Sample.ISSUES "My parcel is Late".
Proof. apply classify_ignores_case. reflexivity. Defined.

Lemma classify_empty_text_witness :
  classify_issue_node Sample.unicode Sample.ISSUES
    (mkState None None None None None None None None) =
  OK (set_recommendation (Some "Review ticket manually.")
       (set_evidence (Some "Matched keyword for issue_type=other")
         (set_issue_type (Some "other")
            (mkState None None None None None None None None)))).
Proof.
  apply classify_empty_text; [reflexivity|].
  repeat constructor; discriminate.
Defined.

Lemma classify_empty_keyword_witness :
  _classify_issue_text Sample.unicode
    ([mkRule "refund" "refund_request"] ++ mkRule "" "general" :: Sample.ISSUES)
    "my parcel is late" =
  _classify_issue_text Sample.unicode
    ([mkRule "refund" "refund_request"] ++ [mkRule "" "general"])
    "my parcel is late" ∧
  ∃ r', r' ∈ [mkRule "refund" "refund_request"] ++ [mkRule "" "general"] ∧
    cls_issue_type
      (_classify_issue_text Sample.unicode
         ([mkRule "refund" "refund_request"] ++ mkRule "" "general" :: Sample.ISSUES)
         "my parcel is late") = rule_issue_type r'.
Proof. apply classify_empty_keyword. reflexivity. Defined.

Lemma fetch_order_sound_witness :
  ∃ oid o pre post,
    get (Some (Some "ORD1002")) = Some oid ∧ oid ≠ "" ∧
    Sample.ORDERS = pre ++ o :: post ∧ Forall (other_id oid) pre ∧
    o !! "order_id" = Some (JStr oid) ∧
    set_order (Some Sample.ben)
      (mkState (Some []) (Some "hello") (Some (Some "ORD1002")) None None None None None)
    = set_order (Some o)
      (mkState (Some []) (Some "hello") (Some (Some "ORD1002")) None None None None None).
Proof.
  apply (fetch_order_sound Sample.ORDERS
           (mkState (Some []) (Some "hello") (Some (Some "ORD1002"))
              None None None None None)).
  reflexivity.
Defined.

Lemma fetch_order_not_found_sound_witness :
  get (Some (Some "ORD9999")) = Some "ORD9999" ∧ "ORD9999" ≠ "" ∧
  Forall (other_id "ORD9999") Sample.ORDERS.
Proof.
  apply (fetch_order_not_found_sound Sample.ORDERS
           (mkState (Some []) (Some "hello") (Some (Some "ORD9999"))
              None None None None None) "ORD9999").
  reflexivity.
Defined.

Lemma draft_reply_plain_template_witness :
  _draft_reply [mkTemplate "other" "We will get back to you."] "other" Sample.ava
  = OK "We will get back to you.".
Proof. apply draft_reply_plain_template; reflexivity. Defined.

Lemma draft_reply_fallback_resolved_witness :
  ∃ reply, _draft_reply Sample.REPLIES "late_delivery" Sample.ava = OK reply ∧
    Text.has_char "{" reply = false ∧
    Text.contains "{{customer_name}}" reply = false ∧
    Text.contains "{{order_id}}" reply = false.
Proof.
  apply (draft_reply_fallback_resolved Sample.REPLIES "late_delivery"
           "Ava Chen" "ORD1001" Sample.ava); reflexivity.
Defined.

Lemma pipeline_success_witness :
  ∃ fin,
    invoke Sample.add_messages (graph Sample.unicode Sample.ISSUES Sample.REPLIES Sample.ORDERS)
      (initial_state (mkInput Sample.ticket None)) = OK fin ∧
    order_id fin = Some (Some "ORD1001") ∧
    reply_text fin = Some (Some "Hi Ava Chen, sorry that order ORD1001 arrived damaged.").
Proof.
  destruct (invoke Sample.add_messages
              (graph Sample.unicode Sample.ISSUES Sample.REPLIES Sample.ORDERS)
              (initial_state (mkInput Sample.ticket None))) as [fin|e] eqn:Hrun.
  - exists fin. split; [reflexivity|].
    destruct (pipeline_success _ _ _ _ _ _ _ Hrun) as (text & oid & o & reply & _).
    vm_compute in Hrun. injection Hrun as <-. split; reflexivity.
  - vm_compute in Hrun. discriminate.
Defined.

Lemma endpoint_missing_order_id_witness :
  triage_invoke Sample.unicode Sample.add_messages Sample.ISSUES Sample.REPLIES Sample.ORDERS
    (mkInput "hi" (Some ""))
  = HTTPException 400 "order_id is required before fetch_order_node".
Proof.
  apply endpoint_missing_order_id; [reflexivity|].
  intros pre m (c1 & c2 & c3 & ds & -> & _) [post E].
  destruct pre as [|? [|? [|? pre]]]; discriminate.
Defined.

Lemma endpoint_not_found_witness :
  triage_invoke Sample.unicode Sample.add_messages Sample.ISSUES Sample.REPLIES Sample.ORDERS
    (mkInput "hi" (Some "order_id is required"))
  = HTTPException 400 "order not found for id=order_id is required" ∧
  triage_invoke Sample.unicode Sample.add_messages Sample.ISSUES Sample.REPLIES Sample.ORDERS
    (mkInput "where is ord9999" None)
  = HTTPException 404 "order not found for id=ORD9999".
Proof.
  split.
  - apply (endpoint_not_found Sample.unicode Sample.add_messages Sample.ISSUES Sample.REPLIES
             Sample.ORDERS (mkInput "hi" (Some "order_id is required"))
             "order_id is required").
    + left. split; [reflexivity|discriminate].
    + repeat constructor; eexists; (split; [reflexivity|discriminate]).
  - apply (endpoint_not_found Sample.unicode Sample.add_messages Sample.ISSUES Sample.REPLIES
             Sample.ORDERS (mkInput "where is ord9999" None) "ORD9999").
    + right. split; [reflexivity|]. exists "ord9999". split; reflexivity.
    + repeat constructor; eexists; (split; [reflexivity|discriminate]).
Defined.

Lemma endpoint_response_witness :
  ∃ r oid o reply,
    triage_invoke Sample.unicode Sample.add_messages Sample.ISSUES Sample.REPLIES Sample.ORDERS
      (mkInput "ORD1002: please refund" None) = Response r ∧
    request_order_id Sample.unicode (mkInput "ORD1002: please refund" None) oid ∧
    resp_order_id r = Some oid ∧ resp_order r = Some o ∧
    resp_reply_text r = Some reply.
Proof.
  destruct (triage_invoke Sample.unicode Sample.add_messages Sample.ISSUES Sample.REPLIES
              Sample.ORDERS (mkInput "ORD1002: please refund" None))
    as [r| |] eqn:Hrun.
  2: { vm_compute in Hrun. discriminate. }
  2: { vm_compute in Hrun. discriminate. }
  pose proof (endpoint_response Sample.unicode Sample.add_messages Sample.ISSUES Sample.REPLIES
                Sample.ORDERS (mkInput "ORD1002: please refund" None) r Hrun) as H.
  destruct H as (oid & o & reply & Hreq & Hoid & Ho & _ & _ & _ & _ & _ & Hr & _).
  exists r, oid, o, reply. split; [reflexivity|]. split; [exact Hreq|].
  split; [exact Hoid|]. split; [exact Ho|exact Hr].
Defined.

Lemma endpoint_success_witness :
  triage_invoke Sample.unicode Sample.add_messages Sample.ISSUES Sample.REPLIES Sample.ORDERS
    (mkInput "my refund for ord1001 please" (Some "ORD1002")) =
  Response
    (mkResponse (Some "ORD1002") (Some "refund_request") (Some Sample.ben)
       (Some "Hi Ben Ortiz, your refund for order ORD1002 is on its way.")
       (Some "Matched keyword for issue_type=refund_request")
       (Some "Issue a refund after verification.")).
Proof.
  apply (endpoint_success Sample.unicode Sample.add_messages Sample.ISSUES Sample.REPLIES
           Sample.ORDERS [Sample.ava] []
           (mkInput "my refund for ord1001 please" (Some "ORD1002"))
           "ORD1002" "Ben Ortiz" Sample.ben).
  - left. split; [reflexivity|discriminate].
  - reflexivity.
  - repeat constructor. eexists. split; [reflexivity|discriminate].
  - reflexivity.
  - reflexivity.
Defined.

Lemma ingest_token_prefix_witness :
  ∃ st',
    ingest_node Sample.unicode
      (mkState None (Some ("ord1234" +:+ "56789")) None None None None None None)
      = OK st' ∧
    order_id st' = Some (Some (Text.upper Sample.unicode "ord1234")).
Proof.
  apply (ingest_token_prefix Sample.unicode
           (mkState None (Some ("ord1234" +:+ "56789")) None None None None None None)
           "ord1234" "56789"); [reflexivity..|].
  apply (order_token_ascii Sample.unicode "ord1234" eq_refl).
  exists "o"%char, "r"%char, "d"%char, "1"%char, "2"%char, "3"%char, "4"%char.
  repeat split.
Defined.
